(** * dni: Devcontainer Nix Injector — a model of [src/dni/main.py]

    The development embeds the option validators, the command builders and
    the [setup] pipeline of [main.py], and states the properties of the
    specification over that embedding.

    - Python [str] values are sequences of Unicode code points.
    - The two [re] patterns are regular expressions over code points, matched
      with Brzozowski derivatives; [pattern.match] on [^r$] follows the
      meaning of [$] in Python's [re] (end of the string, or just before a
      newline that ends the string).
    - [ctx.params] is a finite map from parameter names to values.
    - [subprocess.run] and [typer.echo] are the two effects of the
      pipeline: a program is a tree of such actions. The interpreter [exec]
      runs it against a world that answers every command with a return code:
      the runs in which [subprocess.run] returns. The interpreter [exec_os]
      runs it against a world in which [subprocess.run] may raise instead
      (an argument that cannot be passed, a program that cannot be started,
      captured output that is not text); where every command returns, the two
      agree.
    - The [shell] command of the tool is outside the model. *)

From Stdlib Require Import ZArith NArith List String Ascii Bool Lia.
From stdpp Require Import gmap strings.

Set Implicit Arguments.
Local Open Scope N_scope.

(** ** Python strings *)

(** A character is a code point, a [str] a sequence of them. *)
Abbreviation char := N (only parsing).
Abbreviation str := (list N) (only parsing).

(** An ASCII literal of the source. *)
Definition lit (s : string) : str := map N_of_ascii (list_ascii_of_string s).
Arguments lit s%_string.

Definition in_range (lo hi : N) (c : char) : bool := (lo <=? c) && (c <=? hi).
Definition is_digit : char -> bool := in_range 48 57.
Definition is_upper : char -> bool := in_range 65 90.
Definition is_lower : char -> bool := in_range 97 122.
Definition is_char (a : ascii) (c : char) : bool := c =? N_of_ascii a.
Arguments is_char a%_char c.

Definition LF : char := 10.

(** [[a-zA-Z0-9_]]: what [\w] matches among the ASCII characters. *)
Definition ascii_word (c : char) : bool :=
  is_lower c || is_upper c || is_digit c || is_char "_" c.

(** Beyond ASCII, [\w] in a [str] pattern is [ch.isalnum()], a table of
    CPython's Unicode database; the development is parametric in it. *)
Class UnicodeData := { isalnum_wide : char -> bool }.

Definition unicode_word `{UnicodeData} (c : char) : bool :=
  if c <? 128 then ascii_word c else isalnum_wide c.

(** ** Regular expressions *)

Inductive regex : Type :=
| Void
| Eps
| Class (p : char -> bool)
| Seq (r1 r2 : regex)
| Alt (r1 r2 : regex)
| Star (r : regex).

(** [r+], [r?], [r{2,}] and a literal string. *)
Definition Plus (r : regex) : regex := Seq r (Star r).
Definition Opt (r : regex) : regex := Alt r Eps.
Definition AtLeast2 (r : regex) : regex := Seq r (Plus r).
Definition Word (s : str) : regex :=
  fold_right (fun c r => Seq (Class (N.eqb c)) r) Eps s.
Definition Lit (s : string) : regex := Word (lit s).
Arguments Lit s%_string.

Fixpoint nullable (r : regex) : bool :=
  match r with
  | Void => false
  | Eps => true
  | Class _ => false
  | Seq r1 r2 => nullable r1 && nullable r2
  | Alt r1 r2 => nullable r1 || nullable r2
  | Star _ => true
  end.

Fixpoint deriv (c : char) (r : regex) : regex :=
  match r with
  | Void => Void
  | Eps => Void
  | Class p => if p c then Eps else Void
  | Seq r1 r2 =>
      if nullable r1 then Alt (Seq (deriv c r1) r2) (deriv c r2)
      else Seq (deriv c r1) r2
  | Alt r1 r2 => Alt (deriv c r1) (deriv c r2)
  | Star r1 => Seq (deriv c r1) (Star r1)
  end.

(** [accepts r s]: the whole of [s] is a word of [r]. *)
Fixpoint accepts (r : regex) (s : str) : bool :=
  match s with
  | [] => nullable r
  | c :: s' => accepts (deriv c r) s'
  end.

(** The words of a regular expression, as a relation. *)
Inductive lang : regex -> str -> Prop :=
| lang_eps : lang Eps []
| lang_class p c : p c = true -> lang (Class p) [c]
| lang_seq r1 r2 s1 s2 : lang r1 s1 -> lang r2 s2 -> lang (Seq r1 r2) (s1 ++ s2)
| lang_alt_l r1 r2 s : lang r1 s -> lang (Alt r1 r2) s
| lang_alt_r r1 r2 s : lang r2 s -> lang (Alt r1 r2) s
| lang_star_nil r : lang (Star r) []
| lang_star_cons r s1 s2 : lang r s1 -> lang (Star r) s2 -> lang (Star r) (s1 ++ s2).

(** [s] without the newline that ends it, when it ends with one. *)
Fixpoint strip_final_newline (s : str) : option str :=
  match s with
  | [] => None
  | [c] => if c =? LF then Some [] else None
  | c :: s' => option_map (cons c) (strip_final_newline s')
  end.

(** [re.compile("^r$").match(value)] is not [None]: [^] is the start of the
    string, and [$] is its end or the position before a final newline. *)
Definition py_match (r : regex) (value : str) : bool :=
  accepts r value
  || match strip_final_newline value with
     | Some v => accepts r v
     | None => false
     end.

(** ** The validators *)

(** [[\w\-\.]] *)
Definition host_char `{UnicodeData} (c : char) : bool :=
  unicode_word c || is_char "-" c || is_char "." c.

(** [.] without the DOTALL flag *)
Definition not_newline (c : char) : bool := negb (c =? LF).

(** The pattern of [validate_url], piece by piece: [^http], [s?], [://],
    [[\w\-\.]+], [\.], [[a-z]{2,}], then an optional group of [/] and any
    run of characters other than newlines, then [$]. *)
Definition url_pattern `{UnicodeData} : regex :=
  Seq (Lit "http") (Seq (Opt (Lit "s")) (Seq (Lit "://")
    (Seq (Plus (Class host_char)) (Seq (Lit ".")
      (Seq (AtLeast2 (Class is_lower))
        (Opt (Seq (Lit "/") (Star (Class not_newline))))))))).

(** [[A-Za-z0-9_.-]] *)
Definition github_char (c : char) : bool :=
  is_upper c || is_lower c || is_digit c
  || is_char "_" c || is_char "." c || is_char "-" c.

(** [^[A-Za-z0-9_.-]+/[A-Za-z0-9_.-]+$] *)
Definition github_pattern : regex :=
  Seq (Plus (Class github_char)) (Seq (Lit "/") (Plus (Class github_char))).

(** The exceptions the program raises. *)
Inductive exn : Type :=
| BadParameter (message : str)
| CalledProcessError (returncode : Z) (cmd : list str).

Inductive result (A : Type) : Type :=
| Return (a : A)
| Raise (e : exn).
Arguments Return {A} a.
Arguments Raise {A} e.

Definition result_bind {A B} (x : result A) (f : A -> result B) : result B :=
  match x with
  | Return a => f a
  | Raise e => Raise e
  end.

Definition validate_url `{UnicodeData} (value : option str) : result (option str) :=
  match value with
  | None => Return None
  | Some v =>
      if negb (py_match url_pattern v)
      then Raise (BadParameter (lit "Invalid URL: " ++ v))
      else Return (Some v)
  end.

Definition validate_github (value : option str) : result (option str) :=
  match value with
  | None => Return None
  | Some v =>
      if negb (py_match github_pattern v)
      then Raise (BadParameter (lit "Invalid GitHub repo format. Use format: username/repo"))
      else Return (Some v)
  end.

(** [ctx.params.get(name)] *)
Definition params_get (params : gmap string (option str)) (name : string) : option str :=
  default None (params !! name).

Definition is_not_None {A} (v : option A) : bool :=
  match v with Some _ => true | None => false end.

Definition validate_sources (ctx_params : gmap string (option str))
    (param_name : string) (value : option str) : result (option str) :=
  let other_param := if String.eqb param_name "repo" then "github"%string else "repo"%string in
  let other_value := params_get ctx_params other_param in
  if is_not_None value && is_not_None other_value then
    Raise (BadParameter (lit "Cannot specify both --repo and --github"))
  else if String.eqb param_name "github" && negb (is_not_None value)
          && negb (is_not_None (params_get ctx_params "repo")) then
    Raise (BadParameter (lit "Must specify either --repo or --github"))
  else Return value.

(** The two options of [setup] that carry the callbacks. *)
Inductive source_option : Type := opt_repo | opt_github.

Definition option_name (o : source_option) : string :=
  match o with opt_repo => "repo" | opt_github => "github" end.

(** [callback=lambda ctx, param, value: validate_sources(ctx, param, validate_...(value))] *)
Definition option_callback `{UnicodeData} (o : source_option)
    (ctx_params : gmap string (option str)) (value : option str) : result (option str) :=
  match o with
  | opt_repo => result_bind (validate_url value) (validate_sources ctx_params "repo")
  | opt_github => result_bind (validate_github value) (validate_sources ctx_params "github")
  end.

(** What the option parser does with one parameter: it calls the callback
    on the value and stores what the callback returns in [ctx.params] under
    the parameter's name. *)
Definition handle_parse_result `{UnicodeData} (o : source_option) (value : option str)
    (ctx_params : gmap string (option str)) : result (gmap string (option str)) :=
  result_bind (option_callback o ctx_params value)
    (fun v => Return (<[option_name o := v]> ctx_params)).

Definition option_value (repo github : option str) (o : source_option) : option str :=
  match o with opt_repo => repo | opt_github => github end.

(** The parameters are handled one after the other, in [order]. *)
Fixpoint parse_args `{UnicodeData} (order : list source_option) (repo github : option str)
    (ctx_params : gmap string (option str)) : result (gmap string (option str)) :=
  match order with
  | [] => Return ctx_params
  | o :: rest =>
      result_bind (handle_parse_result o (option_value repo github o) ctx_params)
        (parse_args rest repo github)
  end.

(** The order in which click handles the two options: those given on the
    command line come first, in the order given ([first] is the one given
    first when both are); those left out follow in the order of their
    declaration, [repo] before [github]. An option left out has the value
    [None]. *)
Definition processing_order (repo github : option str) (first : source_option)
    : list source_option :=
  match repo, github with
  | Some _, Some _ =>
      match first with
      | opt_repo => [opt_repo; opt_github]
      | opt_github => [opt_github; opt_repo]
      end
  | None, Some _ => [opt_github; opt_repo]
  | _, None => [opt_repo; opt_github]
  end.

(** The values of [repo] and [github] that [setup_devcontainer] is called
    with, or the error of the first callback that raises. *)
Definition select_sources `{UnicodeData} (order : list source_option)
    (repo github : option str) : result (option str * option str) :=
  result_bind (parse_args order repo github ∅)
    (fun params => Return (params_get params "repo", params_get params "github")).

(** ** [shlex.quote] *)

Definition SQUOTE : char := 39.
Definition DQUOTE : char := 34.

(** The complement of [[^\w@%+=:,./-]] under [re.ASCII]. *)
Definition shlex_safe (c : char) : bool :=
  ascii_word c || is_char "@" c || is_char "%" c || is_char "+" c || is_char "=" c
  || is_char ":" c || is_char "," c || is_char "." c || is_char "/" c || is_char "-" c.

(** [s.replace(SQUOTE, SQUOTE DQUOTE SQUOTE DQUOTE SQUOTE)] *)
Definition replace_squote (s : str) : str :=
  flat_map (fun c => if c =? SQUOTE then [SQUOTE; DQUOTE; SQUOTE; DQUOTE; SQUOTE] else [c]) s.

Definition shlex_quote (s : str) : str :=
  match s with
  | [] => [SQUOTE; SQUOTE]
  | _ => if forallb shlex_safe s then s
         else [SQUOTE] ++ replace_squote s ++ [SQUOTE]
  end.

(** ** Programs: commands run and lines printed *)

(** The function of [main.py] that hands a command to [run_command]. The
    record of a call keeps it, so that a run tells the commands of the probe
    from those of [devcontainer_exec]. *)
Inductive site : Type :=
| in_start_devcontainer
| in_command_in_container_available
| in_devcontainer_exec.

(** One call of [run_command]. *)
Record call : Type := Call {
  caller : site;
  argv : list str;
  show_output : bool
}.

Record CompletedProcess : Type := {
  args : list str;
  returncode : Z
}.

Inductive prog (A : Type) : Type :=
| Done (r : result A)
| Echo (message : str) (k : prog A)
| Run (c : call) (k : Z -> prog A).
Arguments Done {A} r.
Arguments Echo {A} message k.
Arguments Run {A} c k.

Definition ret {A} (a : A) : prog A := Done (Return a).
Definition throw {A} (e : exn) : prog A := Done (Raise e).

Fixpoint bind {A B} (p : prog A) (f : A -> prog B) : prog B :=
  match p with
  | Done (Return a) => f a
  | Done (Raise e) => Done (Raise e)
  | Echo m k => Echo m (bind k f)
  | Run c k => Run c (fun rc => bind (k rc) f)
  end.

Declare Scope prog_scope.
Delimit Scope prog_scope with prog.
Bind Scope prog_scope with prog.
Notation "'let*' x := p 'in' q" := (bind p (fun x => q))
  (at level 10, x name, p at level 100, q at level 200) : prog_scope.
Notation "p ';;;' q" := (bind p (fun _ => q))
  (at level 100, q at level 200, right associativity) : prog_scope.
Local Open Scope prog_scope.

(** [typer.echo(message)] *)
Definition echo (message : string) : prog unit := Echo (lit message) (ret tt).
Definition echo_str (message : str) : prog unit := Echo message (ret tt).

(** [subprocess.run(cmd, check=False, capture_output=not show_output, text=True)] *)
Definition run_command (from : site) (cmd : list str) (show_output : bool)
    : prog CompletedProcess :=
  Run (Call from cmd show_output) (fun rc => ret {| args := cmd; returncode := rc |}).

(** [CompletedProcess.check_returncode()] *)
Definition check_returncode (p : CompletedProcess) : prog unit :=
  if negb (returncode p =? 0)%Z
  then throw (CalledProcessError (returncode p) (args p))
  else ret tt.

Definition devcontainer_exec (workspace_folder : str) (command : str)
    (remote_env : option (list (str * str))) : prog CompletedProcess :=
  let cmd := [lit "devcontainer"; lit "exec"; lit "--workspace-folder"; workspace_folder] in
  let cmd :=
    match remote_env with
    | Some ((_ :: _) as items) =>
        cmd ++ flat_map (fun '(key, value) => [lit "--remote-env"; key ++ lit "=" ++ value]) items
    | _ => cmd
    end in
  let cmd := cmd ++ [lit "bash"; lit "-c"; command] in
  run_command in_devcontainer_exec cmd true.

Definition command_in_container_available (workspace_folder : str) (command : str)
    : prog bool :=
  let cmd := [lit "devcontainer"; lit "exec"; lit "--workspace-folder"; workspace_folder;
              lit "bash"; lit "-c"; lit "command -v " ++ shlex_quote command] in
  let* r := run_command in_command_in_container_available cmd false in
  ret (returncode r =? 0)%Z.

Definition start_devcontainer (workspace_dir : str) (purge : bool) : prog CompletedProcess :=
  echo_str (lit "Starting devcontainer in " ++ workspace_dir ++ lit "...") ;;;
  let cmd := [lit "devcontainer"; lit "up"] in
  let cmd := cmd ++ [lit "--workspace-folder"; workspace_dir] in
  let cmd := if purge then cmd ++ [lit "--remove-existing-container"] else cmd in
  run_command in_start_devcontainer cmd true.

(** The install commands of the three tools. *)
Definition install_curl : str := lit "sudo apt update && sudo apt install -y " ++ lit "curl".
Definition install_nix : str :=
  lit "curl -L https://nixos.org/nix/install | "
  ++ lit "sh -s -- --no-daemon --nix-extra-conf-file <(echo 'sandbox = false') && "
  ++ lit ". $HOME/.nix-profile/etc/profile.d/nix.sh".
Definition install_home_manager : str :=
  lit "nix-channel --add https://github.com/nix-community/home-manager/archive/master.tar.gz home-manager &> /dev/null "
  ++ lit "nix-channel --update && nix-shell '<home-manager>' -A install &> /dev/null".

(** [f"github:{github}" if github else repo] *)
Definition formatted_nix_input (repo github : option str) : option str :=
  match github with
  | Some ((_ :: _) as g) => Some (lit "github:" ++ g)
  | _ => repo
  end.

(** How an f-string renders an [Optional[str]]. *)
Definition format_value (v : option str) : str :=
  match v with Some s => s | None => lit "None" end.

Definition nix_env : list (str * str) :=
  [(lit "NIX_CONFIG", lit "experimental-features = nix-command flakes")].

Definition apply_command (repo github : option str) (config : str) : str :=
  let input := format_value (formatted_nix_input repo github) in
  (lit "nix run --inputs-from " ++ input ++ lit " home-manager -- ")
  ++ (lit "switch --flake " ++ input ++ lit "#" ++ config ++ lit " -b backup").

Definition setup_devcontainer (workspace_dir : str) (repo github : option str)
    (config : str) (purge : bool) : prog unit :=
  let* started := start_devcontainer workspace_dir purge in
  if negb (returncode started =? 0)%Z then
    echo "Failed to run container!"
  else
  echo "Devcontainer started successfully! Start environment setup..." ;;;
  echo "Installing system dependencies..." ;;;
  let* apt := command_in_container_available workspace_dir (lit "apt") in
  if negb apt then
    echo "System doesn't contain supported package manager!"
  else
  let deps_to_install := lit "curl" in
  let* curl := command_in_container_available workspace_dir deps_to_install in
  (if negb curl then
     let* r := devcontainer_exec workspace_dir
                 (lit "sudo apt update && sudo apt install -y " ++ deps_to_install) None in
     check_returncode r
   else ret tt) ;;;
  let* nix := command_in_container_available workspace_dir (lit "nix") in
  (if negb nix then
     echo "Installing nix..." ;;;
     let* r := devcontainer_exec workspace_dir install_nix None in
     check_returncode r
   else ret tt) ;;;
  let* hm := command_in_container_available workspace_dir (lit "home-manager") in
  (if negb hm then
     echo "Installing home-manager..." ;;;
     let* r := devcontainer_exec workspace_dir install_home_manager None in
     check_returncode r
   else ret tt) ;;;
  echo "Applying personal configuration..." ;;;
  let command := apply_command repo github config in
  let* r := devcontainer_exec workspace_dir command (Some nix_env) in
  check_returncode r ;;;
  echo "Devcontainer setup completed successfully!".

(** ** Running a program *)

Inductive event : Type :=
| Echoed (message : str)
| Called (c : call) (returncode : Z).

(** The world answers a command with a return code; the answer may depend
    on everything that happened before. *)
Definition world : Type := list event -> call -> Z.

(** [exec w p past]: the events of [p], in order, and its result, when it
    starts after the events [past]. *)
Fixpoint exec {A} (w : world) (p : prog A) (past : list event) : list event * result A :=
  match p with
  | Done r => ([], r)
  | Echo m k =>
      let '(evs, r) := exec w k (past ++ [Echoed m]) in (Echoed m :: evs, r)
  | Run c k =>
      let rc := w past c in
      let '(evs, r) := exec w (k rc) (past ++ [Called c rc]) in (Called c rc :: evs, r)
  end.

Definition calls_of (evs : list event) : list (call * Z) :=
  flat_map (fun e => match e with Called c rc => [(c, rc)] | Echoed _ => [] end) evs.

Definition echoes_of (evs : list event) : list str :=
  flat_map (fun e => match e with Echoed m => [m] | Called _ _ => [] end) evs.

(** A world that answers the n-th command with the n-th return code of a
    list, and with 0 after the list is used up. *)
Definition scripted (answers : list Z) : world :=
  fun past _ => nth (length (calls_of past)) answers 0%Z.

Definition run (w : world) (workspace_dir : str) (repo github : option str)
    (config : str) (purge : bool) : list event * result unit :=
  exec w (setup_devcontainer workspace_dir repo github config purge) [].

(** ** The commands of a run, as the properties name them *)

(** [devcontainer exec --workspace-folder DIR bash -c COMMAND] *)
Definition exec_argv (workspace_dir command : str) : list str :=
  [lit "devcontainer"; lit "exec"; lit "--workspace-folder"; workspace_dir;
   lit "bash"; lit "-c"; command].

Definition start_call (workspace_dir : str) (purge : bool) : call :=
  Call in_start_devcontainer
    (if purge
     then [lit "devcontainer"; lit "up"; lit "--workspace-folder"; workspace_dir;
           lit "--remove-existing-container"]
     else [lit "devcontainer"; lit "up"; lit "--workspace-folder"; workspace_dir])
    true.

Definition probe_call (workspace_dir name : str) : call :=
  Call in_command_in_container_available
    (exec_argv workspace_dir (lit "command -v " ++ shlex_quote name)) false.

Definition install_call (workspace_dir command : str) : call :=
  Call in_devcontainer_exec (exec_argv workspace_dir command) true.

(** The command line of the final step. *)
Definition apply_call (workspace_dir : str) (repo github : option str) (config : str) : call :=
  Call in_devcontainer_exec
    [lit "devcontainer"; lit "exec"; lit "--workspace-folder"; workspace_dir;
     lit "--remote-env";
     lit "NIX_CONFIG" ++ lit "=" ++ lit "experimental-features = nix-command flakes";
     lit "bash"; lit "-c"; apply_command repo github config]
    true.

(** The three tools of the install steps, the names they are probed under
    and the commands that install them. *)
Inductive tool : Type := curl | nix | home_manager.

Definition tool_name (t : tool) : str :=
  match t with
  | curl => lit "curl"
  | nix => lit "nix"
  | home_manager => lit "home-manager"
  end.

Definition install_command (t : tool) : str :=
  match t with
  | curl => install_curl
  | nix => install_nix
  | home_manager => install_home_manager
  end.

Definition by_devcontainer_exec (c : call) : bool :=
  match caller c with in_devcontainer_exec => true | _ => false end.

Definition by_probe (c : call) : bool :=
  match caller c with in_command_in_container_available => true | _ => false end.

Definition success_message : str := lit "Devcontainer setup completed successfully!".

(** The two lines [setup_devcontainer] prints to report a failure. *)
Definition failure_messages : list str :=
  [lit "Failed to run container!";
   lit "System doesn't contain supported package manager!"].

(** A step of the pipeline that failed: the container start, the probe for
    [apt] or a command of [devcontainer_exec] (an install or the final
    apply) with a return code other than 0. The probes for the three tools
    are no steps of their own: their answer only decides whether the
    install runs. *)
Definition step_failed (workspace_dir : str) (c : call) (rc : Z) : Prop :=
  rc <> 0%Z
  /\ (caller c = in_start_devcontainer
      \/ caller c = in_devcontainer_exec
      \/ c = probe_call workspace_dir (lit "apt")).

(** The status the interpreter exits with: 0 when [setup_devcontainer]
    returns, 1 when an exception leaves it ([app()] catches none). *)
Definition exit_status (r : result unit) : Z :=
  match r with Return _ => 0 | Raise _ => 1 end.

(** [P before e after] for every way to split a list of events at one of
    its events. *)
Fixpoint each_split (P : list event -> event -> list event -> Prop)
    (before l : list event) : Prop :=
  match l with
  | [] => True
  | e :: after => P before e after /\ each_split P (before ++ [e]) after
  end.

(** After a step that failed there is no command left, and the line that
    reports success is not printed. *)
Definition stops_after_failure (workspace_dir : str)
    (before : list event) (e : event) (after : list event) : Prop :=
  forall c rc, e = Called c rc -> step_failed workspace_dir c rc ->
  calls_of after = [] /\ ~ In success_message (echoes_of (before ++ e :: after)).

(** What holds at the line that announces the final step: one command
    follows, the apply command, and after it the success line when it
    returned 0; every command before has the arguments of the container
    start, or of [devcontainer exec] with the workspace folder, [bash -c] and
    a command, and no environment. *)
Definition apply_step_shape (workspace_dir : str) (repo github : option str) (config : str)
    (purge : bool) (before : list event) (e : event) (after : list event) : Prop :=
  e = Echoed (lit "Applying personal configuration...") ->
  (exists rc,
     after = Called (apply_call workspace_dir repo github config) rc
               :: (if (rc =? 0)%Z then [Echoed success_message] else []))
  /\ (forall c rc, In (Called c rc) before ->
        argv c = argv (start_call workspace_dir purge)
        \/ exists command, argv c = exec_argv workspace_dir command).

(** What holds at a step that failed, by the function that ran the command:
    after the container start and after the probe, one line that names the
    failure and a normal return; after a command of [devcontainer_exec], the
    exception of [check_returncode] with the command and its return code, and
    none of the failure lines printed. *)
Definition fails_as_designed (workspace_dir : str) (r : result unit)
    (before : list event) (e : event) (after : list event) : Prop :=
  forall c rc, e = Called c rc -> step_failed workspace_dir c rc ->
  match caller c with
  | in_start_devcontainer =>
      after = [Echoed (lit "Failed to run container!")] /\ r = Return tt
  | in_command_in_container_available =>
      after = [Echoed (lit "System doesn't contain supported package manager!")]
      /\ r = Return tt
  | in_devcontainer_exec =>
      after = [] /\ r = Raise (CalledProcessError rc (argv c))
      /\ forall m, In m (echoes_of before) -> ~ In m failure_messages
  end.

(** ** [subprocess.run] when a command does not return *)

(** The exceptions that leave [subprocess.run(cmd, check=False,
    capture_output=not show_output, text=True)]. [ValueError]: an argument
    cannot be handed to a program, for a NUL character in it (embedded null
    byte) or for a character with no encoding in the locale (a
    [UnicodeEncodeError], which is a [ValueError]); it is raised before
    anything is started. [OSError]: the program cannot be started
    ([FileNotFoundError], [PermissionError]). [UnicodeDecodeError]: the
    captured output is not text in the locale's encoding. [main.py] has no
    [try]: each of them leaves the function that called [run_command], and
    every caller above it. *)
Inductive run_error : Type :=
| ValueError
| OSError
| UnicodeDecodeError.

(** What the operating system makes of a command: an argument has no
    encoding in the locale; the program is not started; or it runs and
    exits with a return code, having written its two output streams. A
    stream is [Some] text when its bytes decode, [None] when they do not. *)
Inductive process : Type :=
| Unencodable
| NotStarted
| Exited (returncode : Z) (stdout stderr : option str).

Definition os_world : Type := list event -> call -> process.

Definition has_nul (s : str) : bool := existsb (N.eqb 0) s.

(** One call of [subprocess.run]: the exception that leaves it, or the
    return code of the [CompletedProcess]. The output is captured, and
    decoded, only when it is not shown. *)
Definition subprocess_run (w : os_world) (past : list event) (c : call) : run_error + Z :=
  if existsb has_nul (argv c) then inl ValueError
  else
    match w past c with
    | Unencodable => inl ValueError
    | NotStarted => inl OSError
    | Exited rc out err =>
        if show_output c then inr rc
        else
          match out, err with
          | Some _, Some _ => inr rc
          | _, _ => inl UnicodeDecodeError
          end
    end.

(** How a program ends: its own result, or an exception of [subprocess.run]
    that nothing caught, with the command it was raised for. *)
Inductive outcome (A : Type) : Type :=
| Finished (r : result A)
| Uncaught (e : run_error) (c : call).
Arguments Finished {A} r.
Arguments Uncaught {A} e c.

(** [exec_os w p past]: as [exec], against a world in which a command may
    not return. The events are the lines printed and the commands that
    [subprocess.run] returned from. *)
Fixpoint exec_os {A} (w : os_world) (p : prog A) (past : list event)
    : list event * outcome A :=
  match p with
  | Done r => ([], Finished r)
  | Echo m k =>
      let '(evs, o) := exec_os w k (past ++ [Echoed m]) in (Echoed m :: evs, o)
  | Run c k =>
      match subprocess_run w past c with
      | inl e => ([], Uncaught e c)
      | inr rc =>
          let '(evs, o) := exec_os w (k rc) (past ++ [Called c rc]) in
          (Called c rc :: evs, o)
      end
  end.

Definition run_os (w : os_world) (workspace_dir : str) (repo github : option str)
    (config : str) (purge : bool) : list event * outcome unit :=
  exec_os w (setup_devcontainer workspace_dir repo github config purge) [].

(** The return codes of the commands that return in [w], as a [world]. *)
Definition returned_codes (w : os_world) : world :=
  fun past c => match subprocess_run w past c with inr rc => rc | inl _ => 0%Z end.

(** The status the interpreter exits with after an outcome. *)
Definition exit_status_os (o : outcome unit) : Z :=
  match o with Finished r => exit_status r | Uncaught _ _ => 1 end.

(** A world in which every command runs, exits with 0 and writes nothing,
    and one in which no program can be started. *)
Definition every_command_succeeds : os_world := fun _ _ => Exited 0 (Some []) (Some []).
Definition no_program_starts : os_world := fun _ _ => NotStarted.

(** Before a command nothing has been reported: neither success nor a
    failure. *)
Definition nothing_reported (before : list event) (e : event) (after : list event) : Prop :=
  forall c rc, e = Called c rc ->
  ~ In success_message (echoes_of before)
  /\ forall m, In m (echoes_of before) -> ~ In m failure_messages.

(** ** The names of the specification *)

Definition ConflictingSources : exn :=
  BadParameter (lit "Cannot specify both --repo and --github").
Definition MissingSource : exn :=
  BadParameter (lit "Must specify either --repo or --github").
Definition InvalidFormat (e : exn) : Prop :=
  (exists value, e = BadParameter (lit "Invalid URL: " ++ value))
  \/ e = BadParameter (lit "Invalid GitHub repo format. Use format: username/repo").

Definition url_ok `{UnicodeData} (value : str) : bool := py_match url_pattern value.
Definition github_ok (value : str) : bool := py_match github_pattern value.

(** The configuration source of the specification, and the flake reference
    it stands for. *)
Inductive ConfigurationSource : Type :=
| Url (url : str)
| GithubRef (owner_repo : str).

Definition source_of (repo github : option str) : option ConfigurationSource :=
  match repo, github with
  | Some u, None => Some (Url u)
  | None, Some g => Some (GithubRef g)
  | _, _ => None
  end.

Definition flake_ref (src : ConfigurationSource) : str :=
  match src with
  | Url u => u
  | GithubRef g => lit "github:" ++ g
  end.

(** The shape of a repository reference in the words of the specification:
    two non-empty segments of [[A-Za-z0-9_.-]] with one [/] between them. *)
Definition github_shape (s : str) : Prop :=
  exists owner repo,
    s = owner ++ lit "/" ++ repo
    /\ owner <> [] /\ forallb github_char owner = true
    /\ repo <> [] /\ forallb github_char repo = true.

(** The shape of a URL: a scheme, [://], a host that ends in a dot and a
    top-level label of two characters or more, and an optional path. *)
Definition url_shape_of `{UnicodeData} (tld_char path_char : char -> bool) (s : str) : Prop :=
  exists scheme labels tld path,
    s = scheme ++ lit "://" ++ labels ++ lit "." ++ tld ++ path
    /\ (scheme = lit "http" \/ scheme = lit "https")
    /\ labels <> [] /\ forallb host_char labels = true
    /\ (2 <= length tld)%nat /\ forallb tld_char tld = true
    /\ (path = [] \/ exists rest, path = lit "/" ++ rest /\ forallb path_char rest = true).

Definition is_letter (c : char) : bool := is_lower c || is_upper c.

(** In the words of the specification: a top-level label of letters, any
    path. The specification leaves the characters of the host open; they are
    those of the pattern here. *)
Definition spec_url_shape `{UnicodeData} : str -> Prop :=
  url_shape_of is_letter (fun _ => true).

(** As the pattern has it: a top-level label of [a-z], a path without newlines. *)
Definition url_shape `{UnicodeData} : str -> Prop :=
  url_shape_of is_lower not_newline.

(** ** Words of a shell command

    The quoting rules of the POSIX shell, for command lines made of plain
    words, single-quoted and double-quoted parts: blanks separate words, a
    single quote keeps everything up to the next single quote, a double quote
    keeps everything up to the next double quote. Anything else the shell
    gives a meaning to (operators, expansions, globs, escapes, comments) is
    outside this fragment, and the result is [None]. *)

Inductive quoting : Type := Unquoted | InSingle | InDouble.

Definition is_blank (c : char) : bool := (c =? 32) || (c =? 9).

Definition shell_special (c : char) : bool :=
  existsb (N.eqb c) (lit "|&;<>()$`\*?[]#~!{}^") || (c =? LF).

Definition dquote_special (c : char) : bool :=
  existsb (N.eqb c) (lit "$`\!").

Definition push (c : char) (word : option str) : option str :=
  Some (default [] word ++ [c]).

Definition finish (word : option str) (words : list str) : list str :=
  match word with Some w => words ++ [w] | None => words end.

Fixpoint shell_lex (s : str) (mode : quoting) (word : option str) (words : list str)
    : option (list str) :=
  match s with
  | [] =>
      match mode with
      | Unquoted => Some (finish word words)
      | _ => None
      end
  | c :: s' =>
      match mode with
      | InSingle =>
          if c =? SQUOTE then shell_lex s' Unquoted word words
          else shell_lex s' InSingle (push c word) words
      | InDouble =>
          if c =? DQUOTE then shell_lex s' Unquoted word words
          else if dquote_special c then None
          else shell_lex s' InDouble (push c word) words
      | Unquoted =>
          if is_blank c then shell_lex s' Unquoted None (finish word words)
          else if c =? SQUOTE then shell_lex s' InSingle (Some (default [] word)) words
          else if c =? DQUOTE then shell_lex s' InDouble (Some (default [] word)) words
          else if shell_special c then None
          else shell_lex s' Unquoted (push c word) words
      end
  end.

Definition shell_words (command : str) : option (list str) :=
  shell_lex command Unquoted None [].

(** ** Further definitions for the properties of the code *)

(** The selection when [ctx.params] already holds other parameters. *)
Definition select_sources_in `{UnicodeData} (ctx_params : gmap string (option str))
    (order : list source_option) (repo github : option str)
    : result (option str * option str) :=
  result_bind (parse_args order repo github ctx_params)
    (fun params => Return (params_get params "repo", params_get params "github")).

(** A world whose answer depends on how many commands came before, and not
    on what the commands are. *)
Definition by_count (f : nat -> Z) : world :=
  fun past _ => f (length (calls_of past)).

Definition by_start (c : call) : bool :=
  match caller c with in_start_devcontainer => true | _ => false end.

(** The event with the container start replaced by the call [s]. *)
Definition with_start (s : call) (e : event) : event :=
  match e with
  | Called c rc => if by_start c then Called s rc else e
  | Echoed _ => e
  end.

(** The last element of a list, when there is one. *)
Definition last_of {A} (l : list A) : option A := List.last (map Some l) None.

(** An instance for closed examples: no character beyond ASCII is
    alphanumeric. Every example below is ASCII, and does not depend on it. *)
#[local] Instance ascii_only : UnicodeData := {| isalnum_wide := fun _ => false |}.

(** * Properties *)

(** ** The matcher decides the language *)

Section RegexFacts.

Implicit Types (r : regex) (s : str) (c : char) (p : char -> bool).

Lemma lang_seq_inv r1 r2 s :
  lang (Seq r1 r2) s -> exists s1 s2, s = s1 ++ s2 /\ lang r1 s1 /\ lang r2 s2.
Proof. inversion 1; subst; eauto. Qed.

Lemma lang_seq_iff r1 r2 s :
  lang (Seq r1 r2) s <-> exists s1 s2, s = s1 ++ s2 /\ lang r1 s1 /\ lang r2 s2.
Proof.
  split; [apply lang_seq_inv |].
  intros (s1 & s2 & -> & H1 & H2). now constructor.
Qed.

Lemma lang_alt_iff r1 r2 s : lang (Alt r1 r2) s <-> lang r1 s \/ lang r2 s.
Proof.
  split.
  - inversion 1; subst; auto.
  - intros [H | H]; [apply lang_alt_l | apply lang_alt_r]; exact H.
Qed.

Lemma lang_eps_iff s : lang Eps s <-> s = [].
Proof. split; [inversion 1; reflexivity | intros ->; constructor]. Qed.

Lemma lang_class_iff p s : lang (Class p) s <-> exists c, s = [c] /\ p c = true.
Proof.
  split.
  - inversion 1; subst; eauto.
  - intros (c & -> & Hc). now constructor.
Qed.

Lemma lang_void s : ~ lang Void s.
Proof. inversion 1. Qed.

Lemma nullable_lang r : nullable r = true <-> lang r [].
Proof.
  induction r as [| | p | r1 IH1 r2 IH2 | r1 IH1 r2 IH2 | r IH]; simpl.
  - split; [discriminate | intros H; destruct (lang_void H)].
  - split; [constructor | reflexivity].
  - split; [discriminate | inversion 1].
  - rewrite andb_true_iff, IH1, IH2, lang_seq_iff. split.
    + intros [H1 H2]. exists [], []. auto.
    + intros (s1 & s2 & Heq & H1 & H2).
      symmetry in Heq. apply app_eq_nil in Heq as [-> ->]. auto.
  - rewrite orb_true_iff, IH1, IH2, lang_alt_iff. reflexivity.
  - split; [constructor | reflexivity].
Qed.

Lemma lang_star_cons_inv r c s :
  lang (Star r) (c :: s) ->
  exists s1 s2, s = s1 ++ s2 /\ lang r (c :: s1) /\ lang (Star r) s2.
Proof.
  intros H. remember (Star r) as r' eqn:Hr. remember (c :: s) as cs eqn:Hcs.
  revert s Hcs.
  induction H as [| | | | | | r0 s1 s2 H1 _ H2 IH2]; intros t Hcs; try discriminate.
  injection Hr as ->.
  destruct s1 as [| c' s1'].
  - apply IH2; [reflexivity | exact Hcs].
  - simpl in Hcs. injection Hcs as -> <-. eauto.
Qed.

Lemma deriv_lang r : forall c s, lang (deriv c r) s <-> lang r (c :: s).
Proof.
  induction r as [| | p | r1 IH1 r2 IH2 | r1 IH1 r2 IH2 | r IH]; intros c s; simpl.
  - split; intros H; destruct (lang_void H).
  - split; [intros H; destruct (lang_void H) | inversion 1].
  - destruct (p c) eqn:Hp.
    + rewrite lang_eps_iff, lang_class_iff. split.
      * intros ->. eauto.
      * intros (c' & Heq & _). now injection Heq.
    + split; [intros H; destruct (lang_void H) |].
      rewrite lang_class_iff. intros (c' & Heq & Hc').
      injection Heq as -> _. congruence.
  - assert (Hleft : lang (Seq (deriv c r1) r2) s ->
                    lang (Seq r1 r2) (c :: s)).
    { rewrite !lang_seq_iff. intros (s1 & s2 & -> & H1 & H2).
      exists (c :: s1), s2. rewrite <- IH1. auto. }
    assert (Hsplit : lang (Seq r1 r2) (c :: s) ->
                     lang (Seq (deriv c r1) r2) s
                     \/ (lang r1 [] /\ lang r2 (c :: s))).
    { rewrite !lang_seq_iff. intros (s1 & s2 & Heq & H1 & H2).
      destruct s1 as [| c' s1'].
      - right. simpl in Heq. subst s2. auto.
      - left. simpl in Heq. injection Heq as -> ->.
        exists s1', s2. rewrite IH1. auto. }
    destruct (nullable r1) eqn:Hn.
    + rewrite lang_alt_iff, IH2. split.
      * intros [H | H]; [auto |].
        apply nullable_lang in Hn.
        change (c :: s) with ([] ++ c :: s). now constructor.
      * intros H. apply Hsplit in H as [H | [_ H]]; auto.
    + split; [exact Hleft |].
      intros H. apply Hsplit in H as [H | [H _]]; [exact H |].
      apply nullable_lang in H. congruence.
  - rewrite !lang_alt_iff, IH1, IH2. reflexivity.
  - rewrite lang_seq_iff. split.
    + intros (s1 & s2 & -> & H1 & H2). apply IH in H1.
      change (c :: s1 ++ s2) with ((c :: s1) ++ s2). now constructor.
    + intros H. apply lang_star_cons_inv in H as (s1 & s2 & -> & H1 & H2).
      exists s1, s2. rewrite IH. auto.
Qed.

Lemma accepts_lang s : forall r, accepts r s = true <-> lang r s.
Proof.
  induction s as [| c s IH]; intros r; simpl.
  - apply nullable_lang.
  - rewrite IH. apply deriv_lang.
Qed.

(** The languages of the pieces the two patterns are made of. *)

Lemma lang_word (l : str) s : lang (Word l) s <-> s = l.
Proof.
  revert s. induction l as [| c l IH]; intros s; simpl.
  - apply lang_eps_iff.
  - rewrite lang_seq_iff. split.
    + intros (s1 & s2 & -> & H1 & H2).
      apply lang_class_iff in H1 as (c' & -> & Hc').
      apply N.eqb_eq in Hc'. apply IH in H2. now subst.
    + intros ->. exists [c], l. split; [reflexivity |]. split.
      * apply lang_class_iff. exists c. split; [reflexivity | apply N.eqb_refl].
      * now apply IH.
Qed.

Lemma lang_star_class p s : lang (Star (Class p)) s <-> forallb p s = true.
Proof.
  split.
  - intros H. remember (Star (Class p)) as r eqn:Hr.
    induction H as [| | | | | | r0 s1 s2 H1 _ H2 IH2]; try discriminate; [reflexivity |].
    injection Hr as ->.
    apply lang_class_iff in H1 as (c & -> & Hc). simpl.
    rewrite Hc. now apply IH2.
  - induction s as [| c s IH]; simpl; intros H; [constructor |].
    apply andb_true_iff in H as [Hc Hs].
    change (c :: s) with ([c] ++ s). constructor; [now constructor | auto].
Qed.

Lemma lang_plus_class p s :
  lang (Plus (Class p)) s <-> s <> [] /\ forallb p s = true.
Proof.
  unfold Plus. rewrite lang_seq_iff. split.
  - intros (s1 & s2 & -> & H1 & H2).
    apply lang_class_iff in H1 as (c & -> & Hc).
    apply lang_star_class in H2. simpl. rewrite Hc. split; [discriminate | exact H2].
  - intros [Hne H]. destruct s as [| c s]; [congruence |].
    simpl in H. apply andb_true_iff in H as [Hc Hs].
    exists [c], s. split; [reflexivity |]. split.
    + now constructor.
    + now apply lang_star_class.
Qed.

Lemma lang_atleast2_class p s :
  lang (AtLeast2 (Class p)) s <-> (2 <= length s)%nat /\ forallb p s = true.
Proof.
  unfold AtLeast2. rewrite lang_seq_iff. split.
  - intros (s1 & s2 & -> & H1 & H2).
    apply lang_class_iff in H1 as (c & -> & Hc).
    apply lang_plus_class in H2 as [Hne H2]. simpl. rewrite Hc.
    split; [| exact H2]. destruct s2; [congruence | simpl; lia].
  - intros [Hlen H]. destruct s as [| c s]; [simpl in Hlen; lia |].
    simpl in H. apply andb_true_iff in H as [Hc Hs].
    exists [c], s. split; [reflexivity |]. split.
    + now constructor.
    + apply lang_plus_class. split; [| exact Hs].
      destruct s; [simpl in Hlen; lia | discriminate].
Qed.

Lemma lang_opt r s : lang (Opt r) s <-> lang r s \/ s = [].
Proof. unfold Opt. now rewrite lang_alt_iff, lang_eps_iff. Qed.

End RegexFacts.

(** Without a final newline, [$] is the end of the string. *)
Lemma py_match_no_final_newline r (s : str) :
  strip_final_newline s = None -> py_match r s = accepts r s.
Proof. intros H. unfold py_match. rewrite H. apply orb_false_r. Qed.

Lemma strip_final_newline_app (s : str) : strip_final_newline (s ++ [LF]) = Some s.
Proof.
  induction s as [| c s IH]; [reflexivity |].
  simpl. rewrite IH. destruct (s ++ [LF]) eqn:E; [| reflexivity].
  destruct s; discriminate.
Qed.

Lemma strip_final_newline_Some (s v : str) :
  strip_final_newline s = Some v -> s = v ++ [LF].
Proof.
  revert v. induction s as [| c s IH]; intros v; [discriminate |].
  simpl. destruct s as [| c' s'].
  - destruct (N.eqb_spec c LF) as [-> |]; [| discriminate].
    intros [= <-]. reflexivity.
  - destruct (strip_final_newline (c' :: s')) as [v' |]; [| discriminate].
    intros [= <-]. simpl. f_equal. now apply IH.
Qed.

(** ** Repository references (C5) *)

Ltac lang_inv :=
  repeat match goal with
    | H : lang (Seq _ _) _ |- _ => apply lang_seq_inv in H as (? & ? & -> & ? & ?)
    | H : lang (Lit _) _ |- _ => unfold Lit in H; apply lang_word in H; subst
    | H : lang (Plus (Class _)) _ |- _ => apply lang_plus_class in H as [? ?]
    | H : lang (AtLeast2 (Class _)) _ |- _ => apply lang_atleast2_class in H as [? ?]
    | H : lang (Star (Class _)) _ |- _ => apply lang_star_class in H
    | H : lang (Opt _) _ |- _ => apply lang_opt in H as [? | ->]
    end.

Lemma lang_lit (l : string) : lang (Lit l) (lit l).
Proof. unfold Lit. now apply lang_word. Qed.

Lemma github_pattern_lang (s : str) : lang github_pattern s <-> github_shape s.
Proof.
  unfold github_pattern, github_shape. split.
  - intros H. lang_inv. eauto 10.
  - intros (owner & repo & -> & Ho1 & Ho2 & Hr1 & Hr2).
    repeat constructor; try apply lang_lit; now apply lang_plus_class.
Qed.

Lemma github_ok_shape (s : str) :
  strip_final_newline s = None -> github_ok s = true <-> github_shape s.
Proof.
  intros H. unfold github_ok. rewrite (py_match_no_final_newline _ _ H).
  now rewrite accepts_lang, github_pattern_lang.
Qed.

Lemma validate_github_Some (s : str) :
  validate_github (Some s) = Return (Some s) <-> github_ok s = true.
Proof.
  unfold validate_github, github_ok.
  destruct (py_match github_pattern s); simpl; split; congruence.
Qed.

(** Apart from a newline at the very end, [validate_github] accepts the
    repository references of the specification and nothing else. *)
Lemma validate_github_shape (s : str) :
  strip_final_newline s = None ->
  validate_github (Some s) = Return (Some s) <-> github_shape s.
Proof. intros H. now rewrite validate_github_Some, github_ok_shape. Qed.

(** C5. [validate_github] accepts [octocat/hello-world] and rejects
    [octocat], [octocat/], [/hello-world] and [octocat/hello world] with the
    format error, as the specification says; but it does not accept exactly
    the strings made of two non-empty segments of [[A-Za-z0-9_.-]] around one
    [/]: [octocat/hello-world] followed by a newline is accepted too, because
    [$] also matches before a newline that ends the string. *)
Theorem validate_github_accepts_final_newline :
  let invalid : result (option str) :=
    Raise (BadParameter (lit "Invalid GitHub repo format. Use format: username/repo")) in
  validate_github (Some (lit "octocat/hello-world" ++ [LF]))
    = Return (Some (lit "octocat/hello-world" ++ [LF]))
  /\ ~ github_shape (lit "octocat/hello-world" ++ [LF])
  /\ validate_github (Some (lit "octocat/hello-world")) = Return (Some (lit "octocat/hello-world"))
  /\ github_shape (lit "octocat/hello-world")
  /\ validate_github (Some (lit "octocat")) = invalid
  /\ validate_github (Some (lit "octocat/")) = invalid
  /\ validate_github (Some (lit "/hello-world")) = invalid
  /\ validate_github (Some (lit "octocat/hello world")) = invalid.
Proof.
  cbv zeta. split; [reflexivity |]. split.
  - rewrite <- github_pattern_lang, <- accepts_lang. now vm_compute.
  - split; [reflexivity |]. split; [| now vm_compute].
    apply github_pattern_lang, accepts_lang. reflexivity.
Qed.

(** ** URLs (C4) *)

Lemma url_pattern_lang `{UnicodeData} (s : str) : lang url_pattern s <-> url_shape s.
Proof.
  unfold url_pattern, url_shape, url_shape_of. split.
  - intros H0. lang_inv.
    all: first
      [ exists (lit "https"); do 3 eexists; split; [reflexivity |]
      | exists (lit "http"); do 3 eexists; split; [reflexivity |] ].
    all: repeat (split; [now eauto |]).
    all: first [ now left | right; eexists; split; [reflexivity | assumption] ].
  - intros (scheme & labels & tld & path & -> & Hs & Hl1 & Hl2 & Ht1 & Ht2 & Hp).
    assert (Hsch : exists s', scheme = lit "http" ++ s' /\ lang (Opt (Lit "s")) s').
    { destruct Hs as [-> | ->].
      - exists []. split; [reflexivity | apply lang_opt; now right].
      - exists (lit "s"). split; [reflexivity | apply lang_opt; left; apply lang_lit]. }
    destruct Hsch as (s' & -> & Hs').
    rewrite <- !app_assoc.
    constructor; [apply lang_lit |].
    constructor; [exact Hs' |].
    constructor; [apply lang_lit |].
    constructor; [now apply lang_plus_class |].
    constructor; [apply lang_lit |].
    constructor; [now apply lang_atleast2_class |].
    apply lang_opt. destruct Hp as [-> | (rest & -> & Hrest)]; [now right | left].
    constructor; [apply lang_lit | now apply lang_star_class].
Qed.

Lemma validate_url_Some `{UnicodeData} (s : str) :
  validate_url (Some s) = Return (Some s) <-> url_ok s = true.
Proof.
  unfold validate_url, url_ok.
  destruct (py_match url_pattern s); simpl; split; congruence.
Qed.

Lemma url_ok_shape `{UnicodeData} (s : str) :
  strip_final_newline s = None -> url_ok s = true <-> url_shape s.
Proof.
  intros H0. unfold url_ok. rewrite (py_match_no_final_newline _ _ H0).
  now rewrite accepts_lang, url_pattern_lang.
Qed.

(** C4, as the code has it. Among the strings that do not end in a newline,
    [validate_url] accepts exactly those made of the scheme [http] or
    [https], [://], one or more characters of [[\w.-]], a dot, a top-level
    label of two or more lower-case letters [a-z], and an optional path of
    [/] and characters other than newlines; every other string is rejected
    with the error [Invalid URL: ...]. In particular [https://example.com] and
    [http://sub.example.co/path] are accepted, and [ftp://x.com],
    [not-a-url] and [https://nohost] are rejected. *)
Theorem validate_url_shape `{UnicodeData} :
  (forall s : str,
     strip_final_newline s = None ->
     (validate_url (Some s) = Return (Some s) <-> url_shape s)
     /\ (~ url_shape s ->
         validate_url (Some s) = Raise (BadParameter (lit "Invalid URL: " ++ s))))
  /\ validate_url (Some (lit "https://example.com")) = Return (Some (lit "https://example.com"))
  /\ validate_url (Some (lit "http://sub.example.co/path"))
     = Return (Some (lit "http://sub.example.co/path"))
  /\ validate_url (Some (lit "ftp://x.com"))
     = Raise (BadParameter (lit "Invalid URL: " ++ lit "ftp://x.com"))
  /\ validate_url (Some (lit "not-a-url"))
     = Raise (BadParameter (lit "Invalid URL: " ++ lit "not-a-url"))
  /\ validate_url (Some (lit "https://nohost"))
     = Raise (BadParameter (lit "Invalid URL: " ++ lit "https://nohost")).
Proof.
  split.
  - intros s Hs. split.
    + now rewrite validate_url_Some, url_ok_shape.
    + intros Hno. rewrite <- (url_ok_shape _ Hs) in Hno.
      unfold validate_url, url_ok in *.
      destruct (py_match url_pattern s); [now destruct Hno | reflexivity].
  - repeat split; reflexivity.
Qed.

Lemma validate_url_shape_witness :
  strip_final_newline (lit "http://sub.example.co/path") = None
  /\ (@validate_url ascii_only (Some (lit "http://sub.example.co/path"))
      = Return (Some (lit "http://sub.example.co/path"))
      <-> @url_shape ascii_only (lit "http://sub.example.co/path")).
Proof.
  split; [reflexivity |].
  apply (proj1 (@validate_url_shape ascii_only) (lit "http://sub.example.co/path")).
  reflexivity.
Defined.

(** C4, as the specification states it, fails: [https://example.COM] has the
    scheme [https], a host with a dot and a top-level label of three letters,
    and [validate_url] rejects it, since the pattern wants the letters of the
    label in lower case. *)
Lemma validate_url_rejects_upper_case_label :
  @spec_url_shape ascii_only (lit "https://example.COM")
  /\ @validate_url ascii_only (Some (lit "https://example.COM"))
     = Raise (BadParameter (lit "Invalid URL: " ++ lit "https://example.COM")).
Proof.
  split; [| reflexivity].
  exists (lit "https"), (lit "example"), (lit "COM"), [].
  repeat split; auto. simpl. lia.
Qed.

(** ** Source selection (C1) *)

Lemma validate_url_cases `{UnicodeData} (u : str) :
  validate_url (Some u)
  = if url_ok u then Return (Some u) else Raise (BadParameter (lit "Invalid URL: " ++ u)).
Proof. unfold validate_url, url_ok. now destruct (py_match url_pattern u). Qed.

Lemma validate_github_cases (g : str) :
  validate_github (Some g)
  = if github_ok g then Return (Some g)
    else Raise (BadParameter (lit "Invalid GitHub repo format. Use format: username/repo")).
Proof. unfold validate_github, github_ok. now destruct (py_match github_pattern g). Qed.

Lemma params_get_insert_eq (m : gmap string (option str)) k v :
  params_get (<[k := v]> m) k = v.
Proof. unfold params_get. now rewrite lookup_insert_eq. Qed.

Lemma params_get_insert_ne (m : gmap string (option str)) k k' v :
  k <> k' -> params_get (<[k := v]> m) k' = params_get m k'.
Proof. intros Hne. unfold params_get. now rewrite lookup_insert_ne. Qed.

Lemma params_get_empty k : params_get ∅ k = None.
Proof. unfold params_get. now rewrite lookup_empty. Qed.

Ltac params_simpl :=
  repeat first
    [ rewrite params_get_insert_eq
    | rewrite params_get_insert_ne by discriminate
    | rewrite params_get_empty ].

Ltac select_step :=
  first
    [ rewrite validate_url_cases
    | rewrite validate_github_cases
    | progress change (validate_url None) with (@Return (option str) None)
    | progress change (validate_github None) with (@Return (option str) None)
    | progress cbn [parse_args option_value option_name result_bind
                    is_not_None andb negb orb String.eqb Ascii.eqb Bool.eqb]
    | progress unfold handle_parse_result, option_callback, validate_sources
    | progress params_simpl ].

(** The outcome of the selection, case by case. *)
Lemma select_sources_table `{UnicodeData} (repo github : option str) (first : source_option) :
  let invalid_url (u : str) : result (option str * option str) :=
    Raise (BadParameter (lit "Invalid URL: " ++ u)) in
  let invalid_github : result (option str * option str) :=
    Raise (BadParameter (lit "Invalid GitHub repo format. Use format: username/repo")) in
  select_sources (processing_order repo github first) repo github
  = match repo, github with
    | None, None => Raise MissingSource
    | Some u, None => if url_ok u then Return (Some u, None) else invalid_url u
    | None, Some g => if github_ok g then Return (None, Some g) else invalid_github
    | Some u, Some g =>
        match first with
        | opt_repo =>
            if url_ok u
            then if github_ok g then Raise ConflictingSources else invalid_github
            else invalid_url u
        | opt_github =>
            if github_ok g
            then if url_ok u then Raise ConflictingSources else invalid_url u
            else invalid_github
        end
    end.
Proof.
  cbv zeta. unfold select_sources.
  destruct repo as [u |], github as [g |]; [destruct first | | |];
    cbn [processing_order]; repeat select_step;
    try destruct (url_ok u) eqn:Hu; try destruct (github_ok g) eqn:Hg;
    repeat select_step; reflexivity.
Qed.

(** C1, as the code has it. For every pair of candidates and every order in
    which click runs the two callbacks: neither given, the error is
    [MissingSource]; both given and both well-formed, [ConflictingSources];
    both given and one of them malformed, a format error; one given and
    well-formed, that source alone; one given and malformed, its format
    error. *)
Theorem source_selection_outcome `{UnicodeData}
    (repo github : option str) (first : source_option) :
  let outcome := select_sources (processing_order repo github first) repo github in
  match repo, github with
  | None, None => outcome = Raise MissingSource
  | Some u, Some g =>
      if url_ok u && github_ok g then outcome = Raise ConflictingSources
      else (exists e, outcome = Raise e /\ InvalidFormat e)
  | Some u, None =>
      if url_ok u then outcome = Return (Some u, None) /\ source_of (Some u) None = Some (Url u)
      else outcome = Raise (BadParameter (lit "Invalid URL: " ++ u))
  | None, Some g =>
      if github_ok g
      then outcome = Return (None, Some g) /\ source_of None (Some g) = Some (GithubRef g)
      else outcome
           = Raise (BadParameter (lit "Invalid GitHub repo format. Use format: username/repo"))
  end.
Proof.
  cbv zeta. rewrite select_sources_table. cbv zeta.
  destruct repo as [u |], github as [g |]; [destruct first | | |];
    try destruct (url_ok u); try destruct (github_ok g); cbn [andb]; auto;
    eexists; (split; [reflexivity |]); unfold InvalidFormat; eauto.
Qed.

(** The order matters: were [github] handled before a [repo] that is given,
    which click never does, the callback of [github] would not see the value
    of [repo] yet and would report that no source is given. *)
Remark github_callback_before_given_repo :
  @select_sources ascii_only [opt_github; opt_repo] (Some (lit "https://example.com")) None
  = Raise MissingSource.
Proof. reflexivity. Qed.

(** C1, as the specification states it, fails: with both candidates given and
    the URL malformed, the error is the format error of the URL and not
    [ConflictingSources], whichever option comes first on the command line. *)
Lemma both_given_one_malformed_is_format_error :
  let repo := Some (lit "ftp://x.com") in
  let github := Some (lit "octocat/hello-world") in
  let invalid_url : result (option str * option str) :=
    Raise (BadParameter (lit "Invalid URL: " ++ lit "ftp://x.com")) in
  @select_sources ascii_only (processing_order repo github opt_repo) repo github = invalid_url
  /\ @select_sources ascii_only (processing_order repo github opt_github) repo github
     = invalid_url
  /\ invalid_url <> Raise ConflictingSources.
Proof. cbv zeta. split; [reflexivity | split; [reflexivity | discriminate]]. Qed.

(** ** The probe and its quoting (C10) *)

Lemma shlex_safe_plain (c : char) :
  shlex_safe c = true ->
  is_blank c = false /\ (c =? SQUOTE) = false /\ (c =? DQUOTE) = false
  /\ shell_special c = false.
Proof.
  unfold shlex_safe, ascii_word, is_lower, is_upper, is_digit, in_range, is_char,
    is_blank, shell_special, SQUOTE, DQUOTE, LF.
  repeat match goal with
    | |- context [N_of_ascii ?a] =>
        let k := eval vm_compute in (N_of_ascii a) in change (N_of_ascii a) with k
    | |- context [lit ?l] =>
        let k := eval vm_compute in (lit l) in change (lit l) with k
    end.
  rewrite !orb_true_iff, !andb_true_iff, !N.leb_le, !N.eqb_eq.
  intros Hc. cbn [existsb].
  repeat match goal with
    | |- context [c =? ?k] => rewrite (proj2 (N.eqb_neq c k)) by lia
    end.
  auto.
Qed.

Lemma shell_lex_safe (s : str) : forall word words,
  forallb shlex_safe s = true -> s <> [] ->
  shell_lex s Unquoted word words = Some (words ++ [default [] word ++ s]).
Proof.
  induction s as [| c s IH]; intros word words Hs Hne; [congruence |].
  simpl in Hs. apply andb_true_iff in Hs as [Hc Hs].
  apply shlex_safe_plain in Hc as (Hb & Hq & Hd & Hsp).
  simpl. rewrite Hb, Hq, Hd, Hsp.
  destruct s as [| c' s'].
  - reflexivity.
  - rewrite IH by (auto; discriminate). unfold push. simpl.
    now rewrite <- app_assoc.
Qed.

Lemma shell_lex_single_quoted (s : str) : forall acc words tail,
  shell_lex (replace_squote s ++ tail) InSingle (Some acc) words
  = shell_lex tail InSingle (Some (acc ++ s)) words.
Proof.
  induction s as [| c s IH]; intros acc words tail.
  - simpl. now rewrite app_nil_r.
  - unfold replace_squote. simpl flat_map. fold (replace_squote s).
    destruct (N.eqb_spec c SQUOTE) as [-> | Hc].
    + simpl. rewrite IH. now rewrite <- app_assoc.
    + simpl. apply N.eqb_neq in Hc. rewrite Hc. unfold push. simpl.
      rewrite IH. now rewrite <- app_assoc.
Qed.

(** The shell reads what [shlex.quote] returns as one word, the name itself. *)
Lemma shell_lex_shlex_quote (name : str) (words : list str) :
  shell_lex (shlex_quote name) Unquoted None words = Some (words ++ [name]).
Proof.
  unfold shlex_quote. destruct name as [| c s]; [reflexivity |].
  destruct (forallb shlex_safe (c :: s)) eqn:Hsafe.
  - now rewrite shell_lex_safe.
  - change ([SQUOTE] ++ replace_squote (c :: s) ++ [SQUOTE])
      with (SQUOTE :: (replace_squote (c :: s) ++ [SQUOTE])).
    cbn [shell_lex]. change (is_blank SQUOTE) with false.
    change (SQUOTE =? SQUOTE) with true. cbn iota.
    rewrite shell_lex_single_quoted. reflexivity.
Qed.

Lemma shell_words_command_v (q : str) :
  shell_words (lit "command -v " ++ q)
  = shell_lex q Unquoted None [lit "command"; lit "-v"].
Proof. reflexivity. Qed.

Lemma has_nul_app (s t : str) : has_nul (s ++ t) = has_nul s || has_nul t.
Proof. apply existsb_app. Qed.

Lemma has_nul_replace_squote (s : str) : has_nul (replace_squote s) = has_nul s.
Proof.
  induction s as [| c s IH]; [reflexivity |].
  unfold replace_squote. cbn [flat_map]. fold (replace_squote s).
  rewrite has_nul_app, IH.
  destruct (N.eqb_spec c SQUOTE) as [-> | _]; [reflexivity |].
  unfold has_nul. cbn [existsb]. now rewrite orb_false_r.
Qed.

(** [shlex.quote] neither adds a NUL character nor takes one away. *)
Lemma has_nul_shlex_quote (s : str) : has_nul (shlex_quote s) = has_nul s.
Proof.
  unfold shlex_quote. destruct s as [| c s]; [reflexivity |].
  destruct (forallb shlex_safe (c :: s)); [reflexivity |].
  rewrite !has_nul_app, has_nul_replace_squote.
  change (has_nul [SQUOTE]) with false. now rewrite orb_false_r.
Qed.

Lemma has_nul_probe_call (workspace_dir name : str) :
  existsb has_nul (argv (probe_call workspace_dir name))
  = has_nul workspace_dir || has_nul name.
Proof.
  unfold probe_call, exec_argv. cbn [argv existsb].
  rewrite has_nul_app, has_nul_shlex_quote.
  change (has_nul (lit "devcontainer")) with false.
  change (has_nul (lit "exec")) with false.
  change (has_nul (lit "--workspace-folder")) with false.
  change (has_nul (lit "bash")) with false.
  change (has_nul (lit "-c")) with false.
  change (has_nul (lit "command -v ")) with false.
  cbn [orb]. now rewrite orb_false_r.
Qed.

(** The probe against a world in which a command may not return: the
    exception of [subprocess.run], or the comparison of the return code
    with 0. *)
Lemma probe_exec_os (w : os_world) (past : list event) (workspace_dir name : str) :
  exec_os w (command_in_container_available workspace_dir name) past
  = match subprocess_run w past (probe_call workspace_dir name) with
    | inl e => ([], Uncaught e (probe_call workspace_dir name))
    | inr rc => ([Called (probe_call workspace_dir name) rc], Finished (Return (rc =? 0)%Z))
    end.
Proof.
  unfold command_in_container_available, run_command, probe_call, exec_argv.
  cbn [bind ret exec_os].
  now destruct (subprocess_run w past _).
Qed.

(** C10, as the code has it. For every name the probe builds one command
    line, whose last argument is [command -v ] followed by the name as
    [shlex.quote] returns it, to be run with its output captured and not
    shown; the shell reads that text as the three words [command], [-v] and
    the name itself, whatever characters the name has. When the command runs
    and what it wrote is text, the probe returns, and its result is [True]
    exactly when the return code is 0, whatever the text is. When no command
    can be run there is no return code, and the exception of
    [subprocess.run] leaves the probe, which has no result then:
    [ValueError] when the name or the workspace folder has a NUL character
    or no encoding in the locale, [OSError] when the program cannot be
    started. *)
Theorem probe_quotes_the_name (w : os_world) (past : list event) (workspace_dir name : str) :
  let c := probe_call workspace_dir name in
  let probe := exec_os w (command_in_container_available workspace_dir name) past in
  (argv c = [lit "devcontainer"; lit "exec"; lit "--workspace-folder"; workspace_dir;
             lit "bash"; lit "-c"; lit "command -v " ++ shlex_quote name]
   /\ show_output c = false
   /\ shell_words (lit "command -v " ++ shlex_quote name)
      = Some [lit "command"; lit "-v"; name])
  /\ (has_nul workspace_dir || has_nul name = false ->
      forall rc out err, w past c = Exited rc (Some out) (Some err) ->
      probe = ([Called c rc], Finished (Return (rc =? 0)%Z)))
  /\ (has_nul workspace_dir || has_nul name = true ->
      probe = ([], Uncaught ValueError c))
  /\ (has_nul workspace_dir || has_nul name = false ->
      (w past c = Unencodable -> probe = ([], Uncaught ValueError c))
      /\ (w past c = NotStarted -> probe = ([], Uncaught OSError c))).
Proof.
  cbv zeta. split; [| split; [| split]].
  - repeat split. rewrite shell_words_command_v. apply shell_lex_shlex_quote.
  - intros Hnul rc out err Hw. rewrite probe_exec_os. unfold subprocess_run.
    now rewrite has_nul_probe_call, Hnul, Hw.
  - intros Hnul. rewrite probe_exec_os. unfold subprocess_run.
    now rewrite has_nul_probe_call, Hnul.
  - intros Hnul. split; intros Hw; rewrite probe_exec_os; unfold subprocess_run;
      now rewrite has_nul_probe_call, Hnul, Hw.
Qed.

Lemma probe_quotes_the_name_witness :
  let w : os_world := fun _ _ => Exited 1 (Some []) (Some []) in
  let name := lit "nix; rm -rf $HOME" in
  let c := probe_call (lit ".") name in
  has_nul (lit ".") || has_nul name = false
  /\ w [] c = Exited 1 (Some []) (Some [])
  /\ shell_words (lit "command -v " ++ shlex_quote name) = Some [lit "command"; lit "-v"; name]
  /\ exec_os w (command_in_container_available (lit ".") name) []
     = ([Called c 1], Finished (Return false)).
Proof.
  cbv zeta.
  split; [reflexivity |]. split; [reflexivity |].
  split.
  - exact (proj2 (proj2 (proj1 (probe_quotes_the_name
             (fun _ _ => Exited 1 (Some []) (Some []))
             [] (lit ".") (lit "nix; rm -rf $HOME"))))).
  - exact (proj1 (proj2 (probe_quotes_the_name
             (fun _ _ => Exited 1 (Some []) (Some []))
             [] (lit ".") (lit "nix; rm -rf $HOME")))
           eq_refl 1%Z [] [] eq_refl).
Defined.

(** C10, as the specification states it, fails: not every name gives the
    probe a result. For a name with a NUL character [subprocess.run] raises
    [ValueError] before it starts anything, also where every command would
    succeed: no command runs, there is no exit status, and the probe returns
    no boolean. And where the [devcontainer] program cannot be started the
    probe for [apt] raises [OSError] the same way. *)
Lemma probe_without_a_result :
  let nul_name := lit "nix" ++ [0] in
  exec_os every_command_succeeds (command_in_container_available (lit ".") nul_name) []
    = ([], Uncaught ValueError (probe_call (lit ".") nul_name))
  /\ exec_os no_program_starts (command_in_container_available (lit ".") (lit "apt")) []
     = ([], Uncaught OSError (probe_call (lit ".") (lit "apt")))
  /\ (forall rc b,
        exec_os every_command_succeeds (command_in_container_available (lit ".") nul_name) []
        <> ([Called (probe_call (lit ".") nul_name) rc], Finished (Return b))).
Proof. cbv zeta. split; [reflexivity |]. split; [reflexivity |]. discriminate. Qed.

(** Left out of C10: output that is not text. The probe captures what the
    command writes and [text=True] decodes it, so a command that exits with
    0 after writing bytes that do not decode makes the probe raise
    [UnicodeDecodeError], where the name it asked for is in place. *)
Remark probe_output_not_text (w : os_world) (past : list event) (workspace_dir name : str)
    (rc : Z) (out err : option str) :
  has_nul workspace_dir || has_nul name = false ->
  w past (probe_call workspace_dir name) = Exited rc out err ->
  out = None \/ err = None ->
  exec_os w (command_in_container_available workspace_dir name) past
  = ([], Uncaught UnicodeDecodeError (probe_call workspace_dir name)).
Proof.
  intros Hnul Hw Hnone. rewrite probe_exec_os. unfold subprocess_run.
  rewrite has_nul_probe_call, Hnul, Hw. cbn [show_output probe_call].
  destruct Hnone as [-> | ->]; [reflexivity | now destruct out].
Qed.

(** ** Runs of the pipeline *)

Lemma each_split_spec (P : list event -> event -> list event -> Prop) (l : list event) :
  forall pre, each_split P pre l ->
  forall before e after, l = before ++ e :: after -> P (pre ++ before) e after.
Proof.
  induction l as [| x l IH]; intros pre H before e after Heq.
  - destruct before; discriminate.
  - destruct H as [Hx Hl]. destruct before as [| b before].
    + simpl in Heq. injection Heq as -> ->. now rewrite app_nil_r.
    + simpl in Heq. injection Heq as -> ->.
      replace (pre ++ b :: before) with ((pre ++ [b]) ++ before)
        by now rewrite <- app_assoc.
      now apply IH.
Qed.

(** Every command is answered by the world on the events before it: the
    results of all earlier commands among them. *)
Lemma exec_answers {A} (p : prog A) : forall (w : world) past before c rc after,
  fst (exec w p past) = before ++ Called c rc :: after ->
  rc = w (past ++ before) c.
Proof.
  induction p as [r | m k IH | c0 k IH]; intros w past before c rc after Heq; simpl in Heq.
  - destruct before; discriminate.
  - destruct (exec w k (past ++ [Echoed m])) as [evs r] eqn:E. simpl in Heq.
    destruct before as [| b before]; [discriminate |].
    simpl in Heq. injection Heq as <- Heq.
    specialize (IH w (past ++ [Echoed m]) before c rc after).
    rewrite E in IH. rewrite <- app_assoc in IH. now apply IH.
  - destruct (exec w (k (w past c0)) (past ++ [Called c0 (w past c0)])) as [evs r] eqn:E.
    simpl in Heq. destruct before as [| b before].
    + simpl in Heq. injection Heq as <- <- _. now rewrite app_nil_r.
    + simpl in Heq. injection Heq as <- Heq.
      specialize (IH (w past c0) w (past ++ [Called c0 (w past c0)]) before c rc after).
      rewrite E in IH. rewrite <- app_assoc in IH. now apply IH.
Qed.

(** What a program does next is decided by the events so far: two worlds
    that led to the same events see the same line printed or the same command
    run next, and differ at most in the answer to that command. *)
Lemma exec_next_determined {A} (p : prog A) :
  forall (w1 w2 : world) past before e1 e2 after1 after2,
  fst (exec w1 p past) = before ++ e1 :: after1 ->
  fst (exec w2 p past) = before ++ e2 :: after2 ->
  e1 = e2 \/ exists c rc1 rc2, e1 = Called c rc1 /\ e2 = Called c rc2.
Proof.
  induction p as [r | m k IH | c0 k IH];
    intros w1 w2 past before e1 e2 after1 after2 H1 H2; simpl in H1, H2.
  - destruct before; discriminate.
  - destruct (exec w1 k (past ++ [Echoed m])) as [evs1 r1] eqn:E1.
    destruct (exec w2 k (past ++ [Echoed m])) as [evs2 r2] eqn:E2.
    simpl in H1, H2. destruct before as [| b before]; simpl in H1, H2.
    + injection H1 as <- _. injection H2 as <- _. now left.
    + injection H1 as _ H1. injection H2 as _ H2.
      apply (IH w1 w2 (past ++ [Echoed m]) before e1 e2 after1 after2).
      * now rewrite E1.
      * now rewrite E2.
  - destruct (exec w1 (k (w1 past c0)) (past ++ [Called c0 (w1 past c0)]))
      as [evs1 r1] eqn:E1.
    destruct (exec w2 (k (w2 past c0)) (past ++ [Called c0 (w2 past c0)]))
      as [evs2 r2] eqn:E2.
    simpl in H1, H2. destruct before as [| b before]; simpl in H1, H2.
    + injection H1 as <- _. injection H2 as <- _. right. eauto.
    + injection H1 as Hb1 H1. injection H2 as Hb2 H2.
      assert (Hrc : w1 past c0 = w2 past c0) by congruence.
      rewrite <- Hrc in E2.
      apply (IH (w1 past c0) w1 w2 (past ++ [Called c0 (w1 past c0)])
               before e1 e2 after1 after2).
      * now rewrite E1.
      * now rewrite E2.
Qed.

Ltac run_cbn :=
  cbn -[lit shlex_quote install_curl install_nix install_home_manager apply_command
        Z.eqb success_message In].

(** Follow the program through every answer the world can give: each
    return code is 0 or not. *)
Ltac run_step w :=
  match goal with
  | |- context [Z.eqb (w ?past ?c) 0] =>
      let rc := fresh "rc" in
      generalize (w past c); intros rc;
      destruct (Z.eqb_spec rc 0) as [-> | ?]; run_cbn
  end.

Ltac run_paths w :=
  match goal with
  | |- context [run w ?ws ?repo ?github ?config ?purge] =>
      let r := fresh "r" in
      let Hr := fresh "Hr" in
      remember (run w ws repo github config purge) as r eqn:Hr;
      revert Hr;
      unfold run, setup_devcontainer, start_devcontainer, command_in_container_available,
        devcontainer_exec, run_command, echo, echo_str, check_returncode, ret, throw;
      run_cbn; repeat run_step w;
      intros ->; cbn [fst snd]
  end.

(** [In e l] for an event that stands in a list written out. *)
Ltac in_log := cbn [In]; solve [ repeat first [ left; reflexivity | right ] ].

(** The scenario says that a return code is 0, and on this path it is not. *)
Ltac want_zero H :=
  match goal with
  | n : ?r <> 0%Z |- _ => exfalso; apply n; apply H; in_log
  end.

Ltac want_zero_of_tool H :=
  match goal with
  | n : ?r <> 0%Z |- _ =>
      exfalso; apply n;
      first [ apply (H curl); in_log | apply (H nix); in_log | apply (H home_manager); in_log ]
  end.

(** The scenario says that a return code is not 0, and on this path it is. *)
Ltac want_nonzero H := exfalso; apply (H 0%Z); [ in_log | reflexivity ].

Ltac want_nonzero_of_tool H :=
  exfalso;
  first [ apply (H curl 0%Z); [ in_log | reflexivity ]
        | apply (H nix 0%Z); [ in_log | reflexivity ]
        | apply (H home_manager 0%Z); [ in_log | reflexivity ] ].

(** What a scenario says of the return codes, on a run written out. *)
Ltac concrete_answers :=
  intros;
  match goal with
  | Hin : In _ _ |- _ =>
      vm_compute in Hin;
      repeat (destruct Hin as [Hin | Hin];
              [ try discriminate;
                try (injection Hin as <-; first [ reflexivity | discriminate ]) |]);
      destruct Hin
  end.

(** C7. When the container starts and the probe for [apt] reports absence,
    [setup_devcontainer] prints that the system has no supported package
    manager and returns: the only commands of the run are the start of the
    container and that one probe, and no command goes through
    [devcontainer_exec]. *)
Theorem unsupported_environment_stops (w : world) (workspace_dir : str)
    (repo github : option str) (config : str) (purge : bool) :
  let evs := fst (run w workspace_dir repo github config purge) in
  (forall rc, In (Called (start_call workspace_dir purge) rc) evs -> rc = 0%Z) ->
  (forall rc, In (Called (probe_call workspace_dir (lit "apt")) rc) evs -> rc <> 0%Z) ->
  exists rc, rc <> 0%Z
    /\ run w workspace_dir repo github config purge
       = ([Echoed (lit "Starting devcontainer in " ++ workspace_dir ++ lit "...");
           Called (start_call workspace_dir purge) 0;
           Echoed (lit "Devcontainer started successfully! Start environment setup...");
           Echoed (lit "Installing system dependencies...");
           Called (probe_call workspace_dir (lit "apt")) rc;
           Echoed (lit "System doesn't contain supported package manager!")],
          Return tt)
    /\ calls_of evs = [(start_call workspace_dir purge, 0%Z);
                       (probe_call workspace_dir (lit "apt"), rc)]
    /\ List.filter by_devcontainer_exec (map fst (calls_of evs)) = [].
Proof.
  cbv zeta. run_paths w; intros Hstart Hapt.
  all: try solve [want_zero Hstart | want_nonzero Hapt].
  eexists. split; [eassumption |]. repeat split.
Qed.

Lemma unsupported_environment_stops_witness :
  let w := scripted [0; 1]%Z in
  let evs := fst (run w (lit ".") None (Some (lit "octocat/hello-world")) (lit "home") false) in
  (forall rc, In (Called (start_call (lit ".") false) rc) evs -> rc = 0%Z)
  /\ (forall rc, In (Called (probe_call (lit ".") (lit "apt")) rc) evs -> rc <> 0%Z)
  /\ exists rc, rc <> 0%Z
       /\ calls_of evs = [(start_call (lit ".") false, 0%Z);
                          (probe_call (lit ".") (lit "apt"), rc)].
Proof.
  cbv zeta.
  assert (Hstart : forall rc,
            In (Called (start_call (lit ".") false) rc)
              (fst (run (scripted [0; 1]%Z) (lit ".") None
                      (Some (lit "octocat/hello-world")) (lit "home") false)) ->
            rc = 0%Z) by concrete_answers.
  assert (Hapt : forall rc,
            In (Called (probe_call (lit ".") (lit "apt")) rc)
              (fst (run (scripted [0; 1]%Z) (lit ".") None
                      (Some (lit "octocat/hello-world")) (lit "home") false)) ->
            rc <> 0%Z) by concrete_answers.
  split; [exact Hstart |]. split; [exact Hapt |].
  destruct (unsupported_environment_stops (scripted [0; 1]%Z) (lit ".") None
              (Some (lit "octocat/hello-world")) (lit "home") false Hstart Hapt)
    as (rc & Hrc & _ & Hcalls & _).
  exists rc. split; [exact Hrc | exact Hcalls].
Defined.

(** C8. When the container starts, [apt] is there, the three probes for
    [curl], [nix] and [home-manager] report absence, the three installs
    succeed and the final apply fails, the run ends with the exception of
    the apply command. [devcontainer_exec] has run exactly four commands, the
    three installs and the apply; the four probes are commands of the probe
    itself, between them. *)
Theorem apply_failure_after_three_installs (w : world) (workspace_dir : str)
    (repo github : option str) (config : str) (purge : bool) :
  let evs := fst (run w workspace_dir repo github config purge) in
  let apply := apply_call workspace_dir repo github config in
  (forall rc, In (Called (start_call workspace_dir purge) rc) evs -> rc = 0%Z) ->
  (forall rc, In (Called (probe_call workspace_dir (lit "apt")) rc) evs -> rc = 0%Z) ->
  (forall t rc, In (Called (probe_call workspace_dir (tool_name t)) rc) evs -> rc <> 0%Z) ->
  (forall t rc,
     In (Called (install_call workspace_dir (install_command t)) rc) evs -> rc = 0%Z) ->
  (forall rc, In (Called apply rc) evs -> rc <> 0%Z) ->
  exists p1 p2 p3 rc, p1 <> 0%Z /\ p2 <> 0%Z /\ p3 <> 0%Z /\ rc <> 0%Z
    /\ calls_of evs
       = [(start_call workspace_dir purge, 0%Z);
          (probe_call workspace_dir (lit "apt"), 0%Z);
          (probe_call workspace_dir (lit "curl"), p1);
          (install_call workspace_dir install_curl, 0%Z);
          (probe_call workspace_dir (lit "nix"), p2);
          (install_call workspace_dir install_nix, 0%Z);
          (probe_call workspace_dir (lit "home-manager"), p3);
          (install_call workspace_dir install_home_manager, 0%Z);
          (apply, rc)]
    /\ List.filter by_devcontainer_exec (map fst (calls_of evs))
       = [install_call workspace_dir install_curl;
          install_call workspace_dir install_nix;
          install_call workspace_dir install_home_manager;
          apply]
    /\ length (List.filter by_devcontainer_exec (map fst (calls_of evs))) = 4%nat
    /\ length (List.filter by_probe (map fst (calls_of evs))) = 4%nat
    /\ snd (run w workspace_dir repo github config purge)
       = Raise (CalledProcessError rc (argv apply))
    /\ ~ In success_message (echoes_of evs).
Proof.
  cbv zeta. run_paths w; intros Hstart Hapt Hprobe Hinstall Happly.
  all: try solve [ want_zero Hstart | want_zero Hapt | want_nonzero_of_tool Hprobe
                 | want_zero_of_tool Hinstall | want_nonzero Happly ].
  do 4 eexists.
  refine (conj _ (conj _ (conj _ (conj _ (conj eq_refl _))))); try eassumption.
  repeat (split; [reflexivity |]).
  cbn [echoes_of flat_map app In]. intros Hin.
  repeat (destruct Hin as [Hin | Hin]; [vm_compute in Hin; discriminate |]).
  exact Hin.
Qed.


Lemma apply_failure_after_three_installs_witness :
  let w := scripted [0; 0; 1; 0; 1; 0; 1; 0; 1]%Z in
  let ws := lit "." in
  let github := Some (lit "octocat/hello-world") in
  let evs := fst (run w ws None github (lit "home") false) in
  let apply := apply_call ws None github (lit "home") in
  (forall rc, In (Called (start_call ws false) rc) evs -> rc = 0%Z)
  /\ (forall rc, In (Called (probe_call ws (lit "apt")) rc) evs -> rc = 0%Z)
  /\ (forall t rc, In (Called (probe_call ws (tool_name t)) rc) evs -> rc <> 0%Z)
  /\ (forall t rc, In (Called (install_call ws (install_command t)) rc) evs -> rc = 0%Z)
  /\ (forall rc, In (Called apply rc) evs -> rc <> 0%Z)
  /\ length (List.filter by_devcontainer_exec (map fst (calls_of evs))) = 4%nat
  /\ exists rc, snd (run w ws None github (lit "home") false)
                = Raise (CalledProcessError rc (argv apply)).
Proof.
  cbv zeta.
  pose (w := scripted [0; 0; 1; 0; 1; 0; 1; 0; 1]%Z).
  pose (ws := lit ".").
  pose (github := Some (lit "octocat/hello-world")).
  assert (H1 : forall rc,
            In (Called (start_call ws false) rc)
              (fst (run w ws None github (lit "home") false)) -> rc = 0%Z)
    by concrete_answers.
  assert (H2 : forall rc,
            In (Called (probe_call ws (lit "apt")) rc)
              (fst (run w ws None github (lit "home") false)) -> rc = 0%Z)
    by concrete_answers.
  assert (H3 : forall t rc,
            In (Called (probe_call ws (tool_name t)) rc)
              (fst (run w ws None github (lit "home") false)) -> rc <> 0%Z)
    by (intros t; destruct t; concrete_answers).
  assert (H4 : forall t rc,
            In (Called (install_call ws (install_command t)) rc)
              (fst (run w ws None github (lit "home") false)) -> rc = 0%Z)
    by (intros t; destruct t; concrete_answers).
  assert (H5 : forall rc,
            In (Called (apply_call ws None github (lit "home")) rc)
              (fst (run w ws None github (lit "home") false)) -> rc <> 0%Z)
    by concrete_answers.
  repeat (split; [assumption |]).
  destruct (apply_failure_after_three_installs w ws None github (lit "home") false
              H1 H2 H3 H4 H5)
    as (p1 & p2 & p3 & rc & _ & _ & _ & _ & _ & _ & Hlen & _ & Hres & _).
  split; [exact Hlen |]. exists rc. exact Hres.
Defined.

(** The cases of [In e l] on a list written out: the events other than [e]
    drop out, and so do those that carry another return code than the path
    allows. *)
Ltac cases_in H :=
  cbn [In] in H;
  repeat (destruct H as [H | H];
          [ try (vm_compute in H;
                 first [ discriminate | injection H; intros; congruence ]) |]);
  try contradiction.

(** C3. For each of [curl], [nix] and [home-manager]: when the probe for the
    tool returns 0 in a run, that run has no install command for the tool,
    whatever return code one looks for. *)
Theorem present_tool_not_installed (w : world) (workspace_dir : str)
    (repo github : option str) (config : str) (purge : bool) (t : tool) :
  let evs := fst (run w workspace_dir repo github config purge) in
  In (Called (probe_call workspace_dir (tool_name t)) 0) evs ->
  forall rc, ~ In (Called (install_call workspace_dir (install_command t)) rc) evs.
Proof.
  cbv zeta. run_paths w; intros Hin rc' Hinst; destruct t.
  all: cases_in Hin.
  all: cases_in Hinst.
Qed.

Lemma present_tool_not_installed_witness :
  let w := scripted [] in
  let ws := lit "." in
  let evs := fst (run w ws None (Some (lit "octocat/hello-world")) (lit "home") false) in
  In (Called (probe_call ws (tool_name nix)) 0) evs
  /\ forall rc, ~ In (Called (install_call ws (install_command nix)) rc) evs.
Proof.
  cbv zeta.
  assert (Hin : In (Called (probe_call (lit ".") (tool_name nix)) 0)
                  (fst (run (scripted []) (lit ".") None (Some (lit "octocat/hello-world"))
                          (lit "home") false))).
  { cbn -[lit shlex_quote apply_command]. in_log. }
  split; [exact Hin |].
  exact (present_tool_not_installed (scripted []) (lit ".") None
           (Some (lit "octocat/hello-world")) (lit "home") false nix Hin).
Defined.

(** One goal for every event of a list written out. *)
Ltac split_events :=
  repeat match goal with
    | |- _ /\ _ => split
    | |- True => exact I
    end.

Ltac stops_after_failure_event :=
  intros ? ? He [Hne Hc];
  first
    [ discriminate He
    | injection He as <- <-;
      first
        [ solve [ exfalso; apply Hne; reflexivity ]
        | solve [ split;
                  [ reflexivity
                  | let Hin := fresh "Hin" in
                    intros Hin; cbn -[lit success_message In] in Hin; cases_in Hin ] ]
        | solve [ exfalso; destruct Hc as [Hc | [Hc | Hc]];
                  [ discriminate Hc | discriminate Hc | vm_compute in Hc; discriminate Hc ] ] ] ].

Lemma run_stops_after_failure (w : world) (workspace_dir : str)
    (repo github : option str) (config : str) (purge : bool) :
  each_split (stops_after_failure workspace_dir) []
    (fst (run w workspace_dir repo github config purge)).
Proof.
  run_paths w; cbn [each_split app]; unfold stops_after_failure;
    split_events; stops_after_failure_event.
Qed.

Lemma failed_step_is_last (w : world) (workspace_dir : str) (repo github : option str)
    (config : str) (purge : bool) (before after : list event) (c : call) (rc : Z) :
  fst (run w workspace_dir repo github config purge) = before ++ Called c rc :: after ->
  step_failed workspace_dir c rc ->
  calls_of after = []
  /\ ~ In success_message (echoes_of (fst (run w workspace_dir repo github config purge))).
Proof.
  intros Heq Hfail. rewrite Heq.
  exact (@each_split_spec _ _ []
           (run_stops_after_failure w workspace_dir repo github config purge)
           before (Called c rc) after Heq c rc eq_refl Hfail).
Qed.

(** C2. In every run, whatever the world answers: once a step has failed
    (the container start, the probe for [apt], an install or the final
    apply), no further command is run and the success line is not printed.
    The steps come one after the other: the return code of a command is the
    world's answer on the events before it, the results of all earlier
    commands among them, and which command is run at that point is decided by
    those events alone. *)
Theorem fail_fast (w : world) (workspace_dir : str) (repo github : option str)
    (config : str) (purge : bool) (before after : list event) (c : call) (rc : Z) :
  fst (run w workspace_dir repo github config purge) = before ++ Called c rc :: after ->
  (rc = w before c)
  /\ (forall (w' : world) e' after',
        fst (run w' workspace_dir repo github config purge) = before ++ e' :: after' ->
        exists rc', e' = Called c rc')
  /\ (step_failed workspace_dir c rc ->
      calls_of after = []
      /\ ~ In success_message
             (echoes_of (fst (run w workspace_dir repo github config purge)))).
Proof.
  intros Heq. split; [| split].
  - unfold run in Heq. now apply exec_answers in Heq.
  - intros w' e' after' Heq'. unfold run in Heq, Heq'.
    destruct (exec_next_determined _ _ _ _ _ _ _ _ _ Heq Heq')
      as [<- | (c0 & rc1 & rc2 & [= <- <-] & ->)]; eauto.
  - intros Hfail. exact (@failed_step_is_last _ _ _ _ _ _ _ _ _ _ Heq Hfail).
Qed.

Lemma fail_fast_witness :
  let w := scripted [0; 0; 1; 1]%Z in
  let ws := lit "." in
  let evs := fst (run w ws None (Some (lit "octocat/hello-world")) (lit "home") false) in
  let c := install_call ws install_curl in
  evs = removelast evs ++ Called c 1 :: []
  /\ step_failed ws c 1
  /\ calls_of [] = []
  /\ ~ In success_message (echoes_of evs).
Proof.
  cbv zeta.
  assert (Heq : fst (run (scripted [0; 0; 1; 1]%Z) (lit ".") None
                       (Some (lit "octocat/hello-world")) (lit "home") false)
                = removelast (fst (run (scripted [0; 0; 1; 1]%Z) (lit ".") None
                                     (Some (lit "octocat/hello-world")) (lit "home") false))
                  ++ Called (install_call (lit ".") install_curl) 1 :: [])
    by reflexivity.
  assert (Hfail : step_failed (lit ".") (install_call (lit ".") install_curl) 1).
  { split; [discriminate | right; left; reflexivity]. }
  split; [exact Heq |]. split; [exact Hfail |].
  exact (proj2 (proj2 (fail_fast _ _ _ _ _ _ _ _ _ _ Heq)) Hfail).
Defined.

(** ** The final step (C6) *)

Ltac earlier_call :=
  let Hin := fresh "Hin" in
  intros ? ? Hin; cbn [In app] in Hin;
  repeat (destruct Hin as [Hin | Hin];
          [ first [ discriminate Hin
                  | injection Hin as <- <-;
                    first [ left; reflexivity | right; eexists; reflexivity ] ] |]);
  destruct Hin.

Ltac apply_step_event :=
  let He := fresh "He" in
  intros He;
  first
    [ discriminate He
    | solve [ exfalso; vm_compute in He; discriminate He ]
    | split;
      [ match goal with
        | |- exists rc, Called _ ?r :: _ = _ =>
            exists r; first [ reflexivity
                            | rewrite (proj2 (Z.eqb_neq r 0)) by assumption; reflexivity ]
        end
      | earlier_call ] ].

Lemma run_apply_step_shape (w : world) (workspace_dir : str)
    (repo github : option str) (config : str) (purge : bool) :
  each_split (apply_step_shape workspace_dir repo github config purge) []
    (fst (run w workspace_dir repo github config purge)).
Proof.
  run_paths w; cbn [each_split app]; unfold apply_step_shape;
    split_events; apply_step_event.
Qed.

(** The sources that come out of the selection: one of the two, and a
    repository reference is not empty. *)
Lemma select_sources_Return `{UnicodeData} (first : source_option)
    (url_candidate github_candidate repo github : option str) :
  select_sources (processing_order url_candidate github_candidate first)
    url_candidate github_candidate = Return (repo, github) ->
  (exists u, repo = Some u /\ github = None /\ url_ok u = true)
  \/ (exists c g, repo = None /\ github = Some (c :: g) /\ github_ok (c :: g) = true).
Proof.
  intros Hsel. rewrite select_sources_table in Hsel. cbv zeta in Hsel.
  destruct url_candidate as [u |], github_candidate as [g |].
  - destruct first, (url_ok u), (github_ok g); discriminate.
  - destruct (url_ok u) eqn:Hu; [| discriminate].
    injection Hsel as <- <-. left. eauto.
  - destruct (github_ok g) eqn:Hg; [| discriminate].
    injection Hsel as <- <-. right.
    destruct g as [| c g]; [discriminate Hg | eauto].
  - discriminate.
Qed.

(** C6. For sources that come out of the selection: the apply command runs
    [nix run ... home-manager -- switch] with the flake reference of the
    source ([github:] before a repository reference, a URL as it is) both as
    input and as flake, the configuration name as it is after [#], and
    [-b backup]; its arguments carry [--remote-env] with the [NIX_CONFIG]
    toggle. In every run, the line that announces the final step is followed
    by exactly this one command (and the success line when it returns 0), and
    no command before it has an environment among its arguments. *)
Theorem final_apply_step `{UnicodeData} (first : source_option)
    (url_candidate github_candidate repo github : option str)
    (w : world) (workspace_dir config : str) (purge : bool) :
  select_sources (processing_order url_candidate github_candidate first)
    url_candidate github_candidate = Return (repo, github) ->
  let evs := fst (run w workspace_dir repo github config purge) in
  let apply := apply_call workspace_dir repo github config in
  (exists src,
     source_of repo github = Some src
     /\ argv apply
        = [lit "devcontainer"; lit "exec"; lit "--workspace-folder"; workspace_dir;
           lit "--remote-env"; lit "NIX_CONFIG=experimental-features = nix-command flakes";
           lit "bash"; lit "-c";
           lit "nix run --inputs-from " ++ flake_ref src
             ++ lit " home-manager -- switch --flake " ++ flake_ref src
             ++ lit "#" ++ config ++ lit " -b backup"])
  /\ (forall before after,
        evs = before ++ Echoed (lit "Applying personal configuration...") :: after ->
        (exists rc,
           after = Called apply rc :: (if (rc =? 0)%Z then [Echoed success_message] else []))
        /\ (forall c rc, In (Called c rc) before ->
              argv c = argv (start_call workspace_dir purge)
              \/ exists command, argv c = exec_argv workspace_dir command)).
Proof.
  intros Hsel. cbv zeta. split.
  - apply select_sources_Return in Hsel
      as [(u & -> & -> & _) | (c & g & -> & -> & _)].
    + exists (Url u). split; [reflexivity |].
      unfold apply_call, apply_command. cbn [argv formatted_nix_input format_value flake_ref].
      rewrite <- !app_assoc. reflexivity.
    + exists (GithubRef (c :: g)). split; [reflexivity |].
      unfold apply_call, apply_command. cbn [argv formatted_nix_input format_value flake_ref].
      rewrite <- !app_assoc. reflexivity.
  - intros before after Heq.
    exact (@each_split_spec _ _ []
             (run_apply_step_shape w workspace_dir repo github config purge)
             before _ after Heq eq_refl).
Qed.

Lemma final_apply_step_witness :
  let w := scripted [] in
  let ws := lit "." in
  let github := Some (lit "octocat/hello-world") in
  let evs := fst (run w ws None github (lit "home") false) in
  @select_sources ascii_only (processing_order None github opt_github) None github
    = Return (None, github)
  /\ evs = removelast (removelast (removelast evs))
           ++ Echoed (lit "Applying personal configuration...")
           :: [Called (apply_call ws None github (lit "home")) 0; Echoed success_message]
  /\ argv (apply_call ws None github (lit "home"))
     = [lit "devcontainer"; lit "exec"; lit "--workspace-folder"; lit ".";
        lit "--remote-env"; lit "NIX_CONFIG=experimental-features = nix-command flakes";
        lit "bash"; lit "-c";
        lit "nix run --inputs-from github:octocat/hello-world home-manager -- switch --flake github:octocat/hello-world#home -b backup"]
  /\ exists rc,
       [Called (apply_call ws None github (lit "home")) 0; Echoed success_message]
       = Called (apply_call ws None github (lit "home")) rc
           :: (if (rc =? 0)%Z then [Echoed success_message] else []).
Proof.
  cbv zeta.
  assert (Hsel : @select_sources ascii_only
                   (processing_order None (Some (lit "octocat/hello-world")) opt_github)
                   None (Some (lit "octocat/hello-world"))
                 = Return (None, Some (lit "octocat/hello-world"))) by reflexivity.
  assert (Heq : fst (run (scripted []) (lit ".") None (Some (lit "octocat/hello-world"))
                       (lit "home") false)
                = removelast (removelast (removelast
                    (fst (run (scripted []) (lit ".") None
                            (Some (lit "octocat/hello-world")) (lit "home") false))))
                  ++ Echoed (lit "Applying personal configuration...")
                  :: [Called (apply_call (lit ".") None (Some (lit "octocat/hello-world"))
                                (lit "home")) 0;
                      Echoed success_message]) by reflexivity.
  split; [exact Hsel |]. split; [exact Heq |]. split; [reflexivity |].
  exact (proj1 (proj2 (@final_apply_step ascii_only opt_github None
                         (Some (lit "octocat/hello-world")) None
                         (Some (lit "octocat/hello-world")) (scripted []) (lit ".")
                         (lit "home") false Hsel) _ _ Heq)).
Defined.

(** ** How a run fails (C9) *)

Ltac no_failure_line :=
  let Hin := fresh "Hin" in
  let Hm := fresh "Hm" in
  intros ? Hin Hm; cbn -[lit In] in Hin;
  cbn [In] in Hin;
  repeat (destruct Hin as [Hin | Hin]; [ subst; cases_in Hm |]);
  destruct Hin.

Ltac fails_as_designed_event :=
  intros ? ? He [Hne Hc];
  first
    [ discriminate He
    | injection He as <- <-;
      first
        [ solve [ exfalso; apply Hne; reflexivity ]
        | solve [ cbn [caller]; split; [ reflexivity | reflexivity ] ]
        | solve [ cbn [caller]; split; [ reflexivity | split; [ reflexivity | no_failure_line ] ] ]
        | solve [ exfalso; destruct Hc as [Hc | [Hc | Hc]];
                  [ discriminate Hc | discriminate Hc | vm_compute in Hc; discriminate Hc ] ] ] ].

Lemma run_fails_as_designed (w : world) (workspace_dir : str)
    (repo github : option str) (config : str) (purge : bool) :
  each_split
    (fails_as_designed workspace_dir (snd (run w workspace_dir repo github config purge))) []
    (fst (run w workspace_dir repo github config purge)).
Proof.
  run_paths w; cbn [each_split app]; unfold fails_as_designed;
    split_events; fails_as_designed_event.
Qed.

Lemma success_returns (w : world) (workspace_dir : str)
    (repo github : option str) (config : str) (purge : bool) :
  In (Echoed success_message) (fst (run w workspace_dir repo github config purge)) ->
  snd (run w workspace_dir repo github config purge) = Return tt.
Proof.
  run_paths w; intros Hin; first [ reflexivity | cases_in Hin ].
Qed.

(** C9, as the code has it. When a step fails, the run ends there. After a
    failed container start or a missing [apt], [setup_devcontainer] prints
    the line that names the failure and returns, as a run that succeeds
    returns: the exit status is 0. After a failed install or apply it prints
    no failure line: [check_returncode] raises [CalledProcessError] with the
    command and its return code, and the exit status is 1, the same for an
    install and for the apply. *)
Theorem failure_outcomes (w : world) (workspace_dir : str) (repo github : option str)
    (config : str) (purge : bool) (before after : list event) (c : call) (rc : Z) :
  fst (run w workspace_dir repo github config purge) = before ++ Called c rc :: after ->
  step_failed workspace_dir c rc ->
  let r := snd (run w workspace_dir repo github config purge) in
  calls_of after = []
  /\ match caller c with
     | in_start_devcontainer =>
         after = [Echoed (lit "Failed to run container!")] /\ r = Return tt
     | in_command_in_container_available =>
         after = [Echoed (lit "System doesn't contain supported package manager!")]
         /\ r = Return tt
     | in_devcontainer_exec =>
         after = [] /\ r = Raise (CalledProcessError rc (argv c))
         /\ forall m, In m (echoes_of before) -> ~ In m failure_messages
     end
  /\ exit_status r = (if by_devcontainer_exec c then 1 else 0)%Z
  /\ (forall w' : world,
        In (Echoed success_message) (fst (run w' workspace_dir repo github config purge)) ->
        exit_status (snd (run w' workspace_dir repo github config purge)) = 0%Z).
Proof.
  intros Heq Hfail. cbv zeta.
  pose proof (@each_split_spec _ _ []
                (run_fails_as_designed w workspace_dir repo github config purge)
                before _ after Heq c rc eq_refl Hfail) as Hshape.
  split; [exact (proj1 (@failed_step_is_last _ _ _ _ _ _ _ _ _ _ Heq Hfail)) |].
  split; [exact Hshape |]. split.
  - unfold by_devcontainer_exec.
    destruct (caller c); [destruct Hshape as [_ ->] | destruct Hshape as [_ ->]
                         | destruct Hshape as (_ & -> & _)]; reflexivity.
  - intros w' Hin. now rewrite (success_returns _ _ _ _ _ _ Hin).
Qed.

Lemma failure_outcomes_witness :
  let w := scripted [0; 0; 1; 1]%Z in
  let ws := lit "." in
  let github := Some (lit "octocat/hello-world") in
  let evs := fst (run w ws None github (lit "home") false) in
  let c := install_call ws install_curl in
  evs = removelast evs ++ Called c 1 :: []
  /\ step_failed ws c 1
  /\ snd (run w ws None github (lit "home") false) = Raise (CalledProcessError 1 (argv c))
  /\ exit_status (snd (run w ws None github (lit "home") false)) = 1%Z.
Proof.
  cbv zeta.
  assert (Heq : fst (run (scripted [0; 0; 1; 1]%Z) (lit ".") None
                       (Some (lit "octocat/hello-world")) (lit "home") false)
                = removelast (fst (run (scripted [0; 0; 1; 1]%Z) (lit ".") None
                                     (Some (lit "octocat/hello-world")) (lit "home") false))
                  ++ Called (install_call (lit ".") install_curl) 1 :: [])
    by reflexivity.
  assert (Hfail : step_failed (lit ".") (install_call (lit ".") install_curl) 1).
  { split; [discriminate | right; left; reflexivity]. }
  split; [exact Heq |]. split; [exact Hfail |].
  destruct (@failure_outcomes _ _ _ _ _ _ _ _ _ _ Heq Hfail) as (_ & Hshape & Hexit & _).
  split; [exact (proj1 (proj2 Hshape)) | exact Hexit].
Defined.

(** C9, as the specification states it, fails. When the install of [curl]
    fails, the run prints its three progress lines and no line that reports a
    failure, and ends with an exception: exit status 1. When the container
    does not start, the run prints the failure line and returns: exit status
    0. The two kinds of failure differ in the exit status. *)
Lemma install_failure_is_an_exception :
  let run_with answers :=
    run (scripted answers) (lit ".") None (Some (lit "octocat/hello-world")) (lit "home") false in
  echoes_of (fst (run_with [0; 0; 1; 1]%Z))
    = [lit "Starting devcontainer in ....";
       lit "Devcontainer started successfully! Start environment setup...";
       lit "Installing system dependencies..."]
  /\ snd (run_with [0; 0; 1; 1]%Z)
     = Raise (CalledProcessError 1 (argv (install_call (lit ".") install_curl)))
  /\ exit_status (snd (run_with [0; 0; 1; 1]%Z)) = 1%Z
  /\ echoes_of (fst (run_with [1%Z]))
     = [lit "Starting devcontainer in ...."; lit "Failed to run container!"]
  /\ snd (run_with [1%Z]) = Return tt
  /\ exit_status (snd (run_with [1%Z])) = 0%Z
  /\ exit_status (snd (run_with [1%Z])) <> exit_status (snd (run_with [0; 0; 1; 1]%Z)).
Proof. cbv zeta. repeat (split; [reflexivity |]). discriminate. Qed.

(** * Further properties of the code *)

(** ** The validators on every string *)

Lemma py_match_iff r (s : str) :
  py_match r s = true <-> lang r s \/ exists v, s = v ++ [LF] /\ lang r v.
Proof.
  unfold py_match. rewrite orb_true_iff, accepts_lang. split.
  - intros [H | H]; [now left |].
    destruct (strip_final_newline s) as [v |] eqn:E; [| discriminate].
    right. exists v. split; [now apply strip_final_newline_Some | now apply accepts_lang].
  - intros [H | (v & -> & H)]; [now left |].
    right. rewrite strip_final_newline_app. now apply accepts_lang.
Qed.

Lemma github_ok_iff (s : str) :
  github_ok s = true <-> github_shape s \/ exists v, s = v ++ [LF] /\ github_shape v.
Proof.
  unfold github_ok. rewrite py_match_iff, github_pattern_lang.
  split; (intros [H | (v & Hv & H)]; [now left | right; exists v]);
    (split; [exact Hv | now apply github_pattern_lang]).
Qed.

Lemma url_ok_iff `{UnicodeData} (s : str) :
  url_ok s = true <-> url_shape s \/ exists v, s = v ++ [LF] /\ url_shape v.
Proof.
  unfold url_ok. rewrite py_match_iff, url_pattern_lang.
  split; (intros [H0 | (v & Hv & H0)]; [now left | right; exists v]);
    (split; [exact Hv | now apply url_pattern_lang]).
Qed.

(** X1. [validate_github] returns its argument exactly for the strings of
    the shape [owner/repo] and for those strings followed by one newline;
    for every other string it raises the format error. *)
Theorem validate_github_accepted (s : str) :
  (validate_github (Some s) = Return (Some s)
   <-> github_shape s \/ exists v, s = v ++ [LF] /\ github_shape v)
  /\ (validate_github (Some s) = Return (Some s)
      \/ validate_github (Some s)
         = Raise (BadParameter (lit "Invalid GitHub repo format. Use format: username/repo"))).
Proof.
  split.
  - rewrite validate_github_Some. apply github_ok_iff.
  - rewrite validate_github_cases. destruct (github_ok s); auto.
Qed.

(** X2. [validate_url] returns its argument exactly for the strings of the
    shape of the pattern and for those strings followed by one newline; for
    every other string it raises [Invalid URL: ] followed by the string. *)
Theorem validate_url_accepted `{UnicodeData} (s : str) :
  (validate_url (Some s) = Return (Some s)
   <-> url_shape s \/ exists v, s = v ++ [LF] /\ url_shape v)
  /\ (validate_url (Some s) = Return (Some s)
      \/ validate_url (Some s) = Raise (BadParameter (lit "Invalid URL: " ++ s))).
Proof.
  split.
  - rewrite validate_url_Some. apply url_ok_iff.
  - rewrite validate_url_cases. destruct (url_ok s); auto.
Qed.

Lemma github_char_shlex_safe (c : char) : github_char c = true -> shlex_safe c = true.
Proof.
  unfold github_char, shlex_safe, ascii_word.
  rewrite !orb_true_iff. intuition.
Qed.

Lemma forallb_github_char_shlex_safe (s : str) :
  forallb github_char s = true -> forallb shlex_safe s = true.
Proof.
  rewrite !forallb_forall. intros H c Hc. apply github_char_shlex_safe. now apply H.
Qed.

Lemma github_shape_shlex_safe (v : str) :
  github_shape v -> v <> [] /\ forallb shlex_safe v = true.
Proof.
  intros (owner & repo & -> & Ho & Hof & Hr & Hrf). split.
  - destruct owner; [congruence | discriminate].
  - rewrite !forallb_app. rewrite (forallb_github_char_shlex_safe _ Hof).
    rewrite (forallb_github_char_shlex_safe _ Hrf). reflexivity.
Qed.

(** X3. A repository reference that [validate_github] accepts is, apart
    from a newline at its end, made of characters that [shlex.quote] leaves
    alone: quoting would not change it, and the shell reads it as one plain
    word. *)
Theorem accepted_github_is_one_plain_word (s : str) :
  validate_github (Some s) = Return (Some s) ->
  exists v, (s = v \/ s = v ++ [LF])
    /\ v <> []
    /\ shlex_quote v = v
    /\ shell_words v = Some [v].
Proof.
  intros Hacc. apply validate_github_Some, github_ok_iff in Hacc.
  assert (Hv : exists v, (s = v \/ s = v ++ [LF]) /\ github_shape v).
  { destruct Hacc as [H | (v & -> & H)]; eauto. }
  destruct Hv as (v & Hs & Hshape).
  apply github_shape_shlex_safe in Hshape as [Hne Hsafe].
  exists v. split; [exact Hs |]. split; [exact Hne |]. split.
  - unfold shlex_quote. destruct v; [congruence |]. now rewrite Hsafe.
  - unfold shell_words. now rewrite shell_lex_safe.
Qed.

Lemma accepted_github_is_one_plain_word_witness :
  validate_github (Some (lit "octocat/hello-world")) = Return (Some (lit "octocat/hello-world"))
  /\ exists v, (lit "octocat/hello-world" = v \/ lit "octocat/hello-world" = v ++ [LF])
       /\ v <> [] /\ shlex_quote v = v /\ shell_words v = Some [v].
Proof.
  split; [reflexivity |].
  exact (@accepted_github_is_one_plain_word (lit "octocat/hello-world") eq_refl).
Defined.

(** X4. [validate_url] puts no restriction on the path beyond newlines: an
    accepted URL that does not end in a newline stays accepted when [/] and
    any text without newlines is added to it, blanks and shell syntax
    included. *)
Theorem validate_url_any_path `{UnicodeData} (s rest : str) :
  strip_final_newline s = None ->
  validate_url (Some s) = Return (Some s) ->
  forallb not_newline rest = true ->
  validate_url (Some (s ++ lit "/" ++ rest)) = Return (Some (s ++ lit "/" ++ rest)).
Proof.
  intros Hs Hacc Hrest.
  apply validate_url_Some, (url_ok_shape _ Hs) in Hacc.
  apply validate_url_Some, url_ok_iff. left.
  destruct Hacc as (scheme & labels & tld & path & -> & Hsch & Hl & Hlf & Ht & Htf & Hp).
  exists scheme, labels, tld, (path ++ lit "/" ++ rest).
  split; [now rewrite <- !app_assoc |].
  repeat (split; [assumption |]). right.
  destruct Hp as [-> | (r0 & -> & Hr0)].
  - exists rest. split; [reflexivity | exact Hrest].
  - exists (r0 ++ lit "/" ++ rest). split; [now rewrite <- !app_assoc |].
    rewrite !forallb_app, Hr0, Hrest. reflexivity.
Qed.

Lemma validate_url_any_path_witness :
  strip_final_newline (lit "https://example.com") = None
  /\ @validate_url ascii_only (Some (lit "https://example.com"))
     = Return (Some (lit "https://example.com"))
  /\ forallb not_newline (lit "; rm -rf $HOME") = true
  /\ @validate_url ascii_only (Some (lit "https://example.com" ++ lit "/" ++ lit "; rm -rf $HOME"))
     = Return (Some (lit "https://example.com" ++ lit "/" ++ lit "; rm -rf $HOME")).
Proof.
  repeat (split; [reflexivity |]).
  exact (@validate_url_any_path ascii_only (lit "https://example.com") (lit "; rm -rf $HOME")
           eq_refl eq_refl eq_refl).
Defined.

(** ** The selection and what [ctx.params] holds *)

Lemma handle_parse_result_agree `{UnicodeData} (o : source_option) (value : option str)
    (m m' : gmap string (option str)) :
  params_get m "repo" = params_get m' "repo" ->
  params_get m "github" = params_get m' "github" ->
  match handle_parse_result o value m, handle_parse_result o value m' with
  | Return n, Return n' =>
      params_get n "repo" = params_get n' "repo"
      /\ params_get n "github" = params_get n' "github"
  | Raise e, Raise e' => e = e'
  | _, _ => False
  end.
Proof.
  intros Hr Hg. unfold handle_parse_result, option_callback, validate_sources.
  destruct o; cbn [String.eqb Ascii.eqb Bool.eqb option_name andb];
    [destruct (validate_url value) as [v |] | destruct (validate_github value) as [v |]];
    cbn [result_bind]; try reflexivity.
  - rewrite <- Hg.
    destruct (is_not_None v && is_not_None (params_get m "github")); cbn [andb negb result_bind];
      [reflexivity |].
    params_simpl. auto.
  - rewrite <- Hr.
    destruct (is_not_None v && is_not_None (params_get m "repo")); [reflexivity |].
    destruct (negb (is_not_None v) && negb (is_not_None (params_get m "repo")));
      cbn [andb negb result_bind]; [reflexivity |].
    params_simpl. auto.
Qed.

Lemma parse_args_agree `{UnicodeData} (order : list source_option) (repo github : option str) :
  forall m m' : gmap string (option str),
  params_get m "repo" = params_get m' "repo" ->
  params_get m "github" = params_get m' "github" ->
  match parse_args order repo github m, parse_args order repo github m' with
  | Return n, Return n' =>
      params_get n "repo" = params_get n' "repo"
      /\ params_get n "github" = params_get n' "github"
  | Raise e, Raise e' => e = e'
  | _, _ => False
  end.
Proof.
  induction order as [| o order IH]; intros m m' Hr Hg; cbn [parse_args].
  - auto.
  - pose proof (handle_parse_result_agree o (option_value repo github o) m m' Hr Hg) as Hstep.
    destruct (handle_parse_result o (option_value repo github o) m) as [n | e],
             (handle_parse_result o (option_value repo github o) m') as [n' | e'];
      cbn [result_bind]; try contradiction; [| exact Hstep].
    destruct Hstep as [Hr' Hg']. now apply IH.
Qed.

(** X5. What click has already stored in [ctx.params] for other parameters
    does not change the selection: as long as no value is stored for [repo]
    and [github], the outcome is the one on an empty [ctx.params], for every
    order of the callbacks. *)
Theorem selection_ignores_other_params `{UnicodeData}
    (ctx_params : gmap string (option str)) (order : list source_option)
    (repo github : option str) :
  params_get ctx_params "repo" = None ->
  params_get ctx_params "github" = None ->
  select_sources_in ctx_params order repo github = select_sources order repo github.
Proof.
  intros Hr Hg. unfold select_sources_in, select_sources.
  pose proof (parse_args_agree order repo github ctx_params ∅) as Hagree.
  rewrite Hr, Hg, !params_get_empty in Hagree. specialize (Hagree eq_refl eq_refl).
  destruct (parse_args order repo github ctx_params) as [n | e],
           (parse_args order repo github ∅) as [n' | e'];
    cbn [result_bind]; try contradiction.
  - destruct Hagree as [-> ->]. reflexivity.
  - now subst.
Qed.

Lemma selection_ignores_other_params_witness :
  let m : gmap string (option str) := <["config" := Some (lit "home")]> ∅ in
  let github := Some (lit "octocat/hello-world") in
  params_get m "repo" = None
  /\ params_get m "github" = None
  /\ @select_sources_in ascii_only m [opt_github; opt_repo] None github
     = @select_sources ascii_only [opt_github; opt_repo] None github.
Proof.
  cbv zeta.
  assert (Hr : params_get (<["config" := Some (lit "home")]> (∅ : gmap string (option str)))
                 "repo" = None) by reflexivity.
  assert (Hg : params_get (<["config" := Some (lit "home")]> (∅ : gmap string (option str)))
                 "github" = None) by reflexivity.
  split; [exact Hr |]. split; [exact Hg |].
  exact (@selection_ignores_other_params ascii_only _ [opt_github; opt_repo] None
           (Some (lit "octocat/hello-world")) Hr Hg).
Defined.

(** X6. The check for a missing source sits in the callback of [github]
    alone and reads what is stored for [repo]: with a well-formed URL given
    and no repository reference, the callbacks in the order of declaration
    return the URL, and the callbacks in the other order raise
    [MissingSource], because [repo] is not stored yet when [github] is
    handled. *)
Theorem missing_source_depends_on_order `{UnicodeData} (u : str) :
  url_ok u = true ->
  select_sources [opt_repo; opt_github] (Some u) None = Return (Some u, None)
  /\ select_sources [opt_github; opt_repo] (Some u) None = Raise MissingSource.
Proof.
  intros Hu. split.
  - pose proof (select_sources_table (Some u) None opt_repo) as Ht.
    cbv zeta in Ht. cbn [processing_order] in Ht. now rewrite Hu in Ht.
  - unfold select_sources. repeat select_step. reflexivity.
Qed.

Lemma missing_source_depends_on_order_witness :
  @url_ok ascii_only (lit "https://example.com") = true
  /\ @select_sources ascii_only [opt_repo; opt_github] (Some (lit "https://example.com")) None
     = Return (Some (lit "https://example.com"), None)
  /\ @select_sources ascii_only [opt_github; opt_repo] (Some (lit "https://example.com")) None
     = Raise MissingSource.
Proof.
  split; [reflexivity |].
  exact (@missing_source_depends_on_order ascii_only (lit "https://example.com") eq_refl).
Defined.

(** ** The commands of the probe and of [devcontainer_exec] *)

(** X7. Two different names never give the same probe command: what the
    shell reads back from the quoted name is the name, so the command that
    [command_in_container_available] runs tells the names apart. *)
Theorem probe_call_injective (workspace_dir a b : str) :
  a <> b ->
  probe_call workspace_dir a <> probe_call workspace_dir b
  /\ forall (w w' : world) (past past' : list event),
       map fst (calls_of (fst (exec w (command_in_container_available workspace_dir a) past)))
       <> map fst
            (calls_of (fst (exec w' (command_in_container_available workspace_dir b) past'))).
Proof.
  intros Hne.
  assert (Hcall : probe_call workspace_dir a <> probe_call workspace_dir b).
  { intros Heq. apply Hne.
    unfold probe_call, exec_argv in Heq. injection Heq as Heq.
    pose proof (shell_lex_shlex_quote a []) as Ha.
    pose proof (shell_lex_shlex_quote b []) as Hb.
    rewrite Heq in Ha. rewrite Ha in Hb. now injection Hb. }
  split; [exact Hcall |].
  intros w w' past past' Heq. apply Hcall.
  change (map fst (calls_of (fst (exec w (command_in_container_available workspace_dir a) past))))
    with [probe_call workspace_dir a] in Heq.
  change (map fst (calls_of (fst (exec w' (command_in_container_available workspace_dir b)
                                    past'))))
    with [probe_call workspace_dir b] in Heq.
  exact (f_equal (hd (probe_call workspace_dir a)) Heq).
Qed.

Lemma probe_call_injective_witness :
  lit "nix" <> lit "nix-env"
  /\ probe_call (lit ".") (lit "nix") <> probe_call (lit ".") (lit "nix-env").
Proof.
  assert (Hne : lit "nix" <> lit "nix-env") by discriminate.
  split; [exact Hne |].
  exact (proj1 (@probe_call_injective (lit ".") (lit "nix") (lit "nix-env") Hne)).
Defined.

(** The arguments [devcontainer_exec] builds for an environment. *)
Lemma devcontainer_exec_exec (w : world) (past : list event)
    (workspace_folder command : str) (remote_env : option (list (str * str))) :
  let items := default [] remote_env in
  let c := Call in_devcontainer_exec
             ([lit "devcontainer"; lit "exec"; lit "--workspace-folder"; workspace_folder]
                ++ flat_map (fun '(key, value) => [lit "--remote-env"; key ++ lit "=" ++ value])
                     items
                ++ [lit "bash"; lit "-c"; command])
             true in
  exec w (devcontainer_exec workspace_folder command remote_env) past
  = ([Called c (w past c)], Return {| args := argv c; returncode := w past c |}).
Proof.
  cbv zeta. destruct remote_env as [[| [k v] items] |]; reflexivity.
Qed.

(** X8. [devcontainer_exec] with an empty environment runs the same command
    as with none. With any environment it runs one command and raises
    nothing, whatever the return code; the command has seven arguments and
    two more for every variable, and the command text is its last argument,
    in one piece. *)
Theorem devcontainer_exec_arguments (w : world) (past : list event)
    (workspace_folder command : str) (remote_env : option (list (str * str))) :
  exec w (devcontainer_exec workspace_folder command (Some [])) past
    = exec w (devcontainer_exec workspace_folder command None) past
  /\ exists c,
       exec w (devcontainer_exec workspace_folder command remote_env) past
         = ([Called c (w past c)], Return {| args := argv c; returncode := w past c |})
       /\ length (argv c) = (7 + 2 * length (default [] remote_env))%nat
       /\ List.last (argv c) [] = command
       /\ firstn 4 (argv c)
          = [lit "devcontainer"; lit "exec"; lit "--workspace-folder"; workspace_folder].
Proof.
  split; [reflexivity |].
  eexists. split; [apply devcontainer_exec_exec |].
  cbn [argv]. set (items := default [] remote_env). clearbody items.
  set (pair := fun '(key, value) => [lit "--remote-env"; key ++ lit "=" ++ value]).
  assert (Hlen : length (flat_map pair items) = (2 * length items)%nat).
  { induction items as [| [k v] items IH]; [reflexivity |]. cbn [flat_map length app pair].
    rewrite IH. lia. }
  split; [| split].
  - rewrite !length_app, Hlen. cbn [length]. lia.
  - rewrite app_assoc.
    change [lit "bash"; lit "-c"; command] with ([lit "bash"; lit "-c"] ++ [command]).
    rewrite app_assoc. apply last_last.
  - reflexivity.
Qed.

(** ** Whole runs *)

(** X9. When every command of a run returns 0, the three tools are found
    in place and nothing is installed: the run is the container start, the
    four probes and the apply command, the only command of
    [devcontainer_exec]; it prints the success line last and returns. *)
Theorem all_present_run (w : world) (workspace_dir : str)
    (repo github : option str) (config : str) (purge : bool) :
  let evs := fst (run w workspace_dir repo github config purge) in
  (forall c rc, In (Called c rc) evs -> rc = 0%Z) ->
  run w workspace_dir repo github config purge
  = ([Echoed (lit "Starting devcontainer in " ++ workspace_dir ++ lit "...");
      Called (start_call workspace_dir purge) 0;
      Echoed (lit "Devcontainer started successfully! Start environment setup...");
      Echoed (lit "Installing system dependencies...");
      Called (probe_call workspace_dir (lit "apt")) 0;
      Called (probe_call workspace_dir (lit "curl")) 0;
      Called (probe_call workspace_dir (lit "nix")) 0;
      Called (probe_call workspace_dir (lit "home-manager")) 0;
      Echoed (lit "Applying personal configuration...");
      Called (apply_call workspace_dir repo github config) 0;
      Echoed success_message],
     Return tt)
  /\ List.filter by_devcontainer_exec (map fst (calls_of evs))
     = [apply_call workspace_dir repo github config].
Proof.
  cbv zeta. run_paths w; intros Hzero.
  all: try solve [ match goal with
                   | n : ?r <> 0%Z |- _ => exfalso; apply n; eapply Hzero; in_log
                   end ].
  split; reflexivity.
Qed.

Lemma all_present_run_witness :
  let evs := fst (run (scripted []) (lit ".") None (Some (lit "octocat/hello-world"))
                    (lit "home") false) in
  (forall c rc, In (Called c rc) evs -> rc = 0%Z)
  /\ List.filter by_devcontainer_exec (map fst (calls_of evs))
     = [apply_call (lit ".") None (Some (lit "octocat/hello-world")) (lit "home")].
Proof.
  cbv zeta.
  assert (Hzero : forall c rc,
            In (Called c rc)
              (fst (run (scripted []) (lit ".") None (Some (lit "octocat/hello-world"))
                      (lit "home") false)) -> rc = 0%Z).
  { intros c rc Hin. cbn -[lit shlex_quote apply_command In] in Hin. cbn [In] in Hin.
    repeat (destruct Hin as [Hin | Hin];
            [ first [ discriminate Hin | now injection Hin ] |]).
    destruct Hin. }
  split; [exact Hzero |].
  exact (proj2 (all_present_run (scripted []) (lit ".") None
                  (Some (lit "octocat/hello-world")) (lit "home") false Hzero)).
Defined.

(** ** Runs in which a command may not return *)

(** A program that finishes against [w] has run the same commands and
    printed the same lines, with the same result, as against the return
    codes of [w]. *)
Lemma exec_os_finished {A} (p : prog A) : forall (w : os_world) past evs r,
  exec_os w p past = (evs, Finished r) ->
  exec (returned_codes w) p past = (evs, r).
Proof.
  induction p as [r0 | m k IH | c0 k IH]; intros w past evs r Heq; simpl in Heq |- *.
  - now injection Heq as <- <-.
  - destruct (exec_os w k (past ++ [Echoed m])) as [evs' o] eqn:E.
    injection Heq as <- ->. now rewrite (IH _ _ _ _ E).
  - destruct (subprocess_run w past c0) as [e | rc] eqn:S; [discriminate |].
    assert (Hrc : returned_codes w past c0 = rc) by (unfold returned_codes; now rewrite S).
    rewrite Hrc.
    destruct (exec_os w (k rc) (past ++ [Called c0 rc])) as [evs' o] eqn:E.
    injection Heq as <- ->. now rewrite (IH _ _ _ _ _ E).
Qed.

(** A program stopped by an exception of [subprocess.run] has, up to the
    command that did not return, run the commands and printed the lines of a
    run in which that command returns. *)
Lemma exec_os_uncaught {A} (p : prog A) : forall (w : os_world) past evs e c,
  exec_os w p past = (evs, Uncaught e c) ->
  subprocess_run w (past ++ evs) c = inl e
  /\ exists after, fst (exec (returned_codes w) p past) = evs ++ Called c 0 :: after.
Proof.
  induction p as [r0 | m k IH | c0 k IH]; intros w past evs e c Heq; simpl in Heq |- *.
  - discriminate.
  - destruct (exec_os w k (past ++ [Echoed m])) as [evs' o] eqn:E.
    injection Heq as <- ->. destruct (IH _ _ _ _ _ E) as [Hraise [after Hafter]].
    rewrite <- app_assoc in Hraise. split; [exact Hraise |].
    exists after. destruct (exec (returned_codes w) k (past ++ [Echoed m])) as [evs0 r0].
    simpl in Hafter |- *. now rewrite Hafter.
  - destruct (subprocess_run w past c0) as [e0 | rc] eqn:S.
    + assert (Hrc : returned_codes w past c0 = 0%Z) by (unfold returned_codes; now rewrite S).
      rewrite Hrc.
      injection Heq as <- <- <-. rewrite app_nil_r. split; [exact S |].
      destruct (exec (returned_codes w) (k 0%Z) (past ++ [Called c0 0%Z])) as [evs0 r0].
      now exists evs0.
    + assert (Hrc : returned_codes w past c0 = rc) by (unfold returned_codes; now rewrite S).
      rewrite Hrc.
      destruct (exec_os w (k rc) (past ++ [Called c0 rc])) as [evs' o] eqn:E.
      injection Heq as <- ->. destruct (IH _ _ _ _ _ _ E) as [Hraise [after Hafter]].
      rewrite <- app_assoc in Hraise. split; [exact Hraise |].
      exists after. destruct (exec (returned_codes w) (k rc) (past ++ [Called c0 rc])) as [evs0 r0].
      simpl in Hafter |- *. now rewrite Hafter.
Qed.

Ltac nothing_reported_event :=
  let He := fresh "He" in
  intros ? ? He;
  first
    [ discriminate He
    | split;
      [ let Hin := fresh "Hin" in
        intros Hin; cbn -[lit success_message In] in Hin; cases_in Hin
      | no_failure_line ] ].

Lemma run_nothing_reported (w : world) (workspace_dir : str)
    (repo github : option str) (config : str) (purge : bool) :
  each_split nothing_reported []
    (fst (run w workspace_dir repo github config purge)).
Proof.
  run_paths w; cbn [each_split app]; unfold nothing_reported;
    split_events; nothing_reported_event.
Qed.

(** How a run ends when every command returns: one of four ways, told apart
    by its last command. *)
Lemma returned_run_outcome (w : world) (workspace_dir : str)
    (repo github : option str) (config : str) (purge : bool) :
  let evs := fst (run w workspace_dir repo github config purge) in
  let r := snd (run w workspace_dir repo github config purge) in
  exists c rc,
    last_of (calls_of evs) = Some (c, rc)
    /\ ((rc = 0%Z /\ c = apply_call workspace_dir repo github config
         /\ r = Return tt /\ last_of (echoes_of evs) = Some success_message)
        \/ (rc <> 0%Z /\ c = start_call workspace_dir purge /\ r = Return tt
            /\ last_of (echoes_of evs) = Some (lit "Failed to run container!")
            /\ ~ In success_message (echoes_of evs))
        \/ (rc <> 0%Z /\ c = probe_call workspace_dir (lit "apt") /\ r = Return tt
            /\ last_of (echoes_of evs)
               = Some (lit "System doesn't contain supported package manager!")
            /\ ~ In success_message (echoes_of evs))
        \/ (rc <> 0%Z /\ by_devcontainer_exec c = true
            /\ r = Raise (CalledProcessError rc (argv c))
            /\ ~ In success_message (echoes_of evs)
            /\ forall m, In m (echoes_of evs) -> ~ In m failure_messages)).
Proof.
  cbv zeta. run_paths w; do 2 eexists; (split; [reflexivity |]).
  all: first
    [ left; solve [ repeat (split; [reflexivity |]); reflexivity ]
    | right; left;
      solve [ split; [assumption |]; repeat (split; [reflexivity |]);
              let Hin := fresh "Hin" in
              intros Hin; cbn -[lit success_message In] in Hin; cases_in Hin ]
    | right; right; left;
      solve [ split; [assumption |]; repeat (split; [reflexivity |]);
              let Hin := fresh "Hin" in
              intros Hin; cbn -[lit success_message In] in Hin; cases_in Hin ]
    | right; right; right;
      solve [ split; [assumption |]; repeat (split; [reflexivity |]);
              split;
              [ let Hin := fresh "Hin" in
                intros Hin; cbn -[lit success_message In] in Hin; cases_in Hin
              | no_failure_line ] ] ].
Qed.

(** X10. Every run ends in one of five ways. [subprocess.run] raised for a
    command instead of returning: the exception leaves [setup_devcontainer],
    the exit status is 1, and neither the success line nor a failure line
    has been printed. Or [subprocess.run] returned for every command, and the
    last one tells the rest. The apply command returned 0: the success line is printed last and
    the function returns. The container start or the probe for [apt] returned
    another code than 0: the matching failure line is printed last, the
    success line is not printed, and the function returns. A command of
    [devcontainer_exec] returned another code than 0: the function raises
    [CalledProcessError] with that code and that command, and prints neither
    the success line nor a failure line. *)
Theorem run_outcome (w : os_world) (workspace_dir : str)
    (repo github : option str) (config : str) (purge : bool) :
  let evs := fst (run_os w workspace_dir repo github config purge) in
  let o := snd (run_os w workspace_dir repo github config purge) in
  (exists e c,
     o = Uncaught e c /\ subprocess_run w evs c = inl e
     /\ exit_status_os o = 1%Z
     /\ ~ In success_message (echoes_of evs)
     /\ forall m, In m (echoes_of evs) -> ~ In m failure_messages)
  \/ (exists c rc,
        last_of (calls_of evs) = Some (c, rc)
        /\ ((rc = 0%Z /\ c = apply_call workspace_dir repo github config
             /\ o = Finished (Return tt)
             /\ last_of (echoes_of evs) = Some success_message)
            \/ (rc <> 0%Z /\ c = start_call workspace_dir purge
                /\ o = Finished (Return tt)
                /\ last_of (echoes_of evs) = Some (lit "Failed to run container!")
                /\ ~ In success_message (echoes_of evs))
            \/ (rc <> 0%Z /\ c = probe_call workspace_dir (lit "apt")
                /\ o = Finished (Return tt)
                /\ last_of (echoes_of evs)
                   = Some (lit "System doesn't contain supported package manager!")
                /\ ~ In success_message (echoes_of evs))
            \/ (rc <> 0%Z /\ by_devcontainer_exec c = true
                /\ o = Finished (Raise (CalledProcessError rc (argv c)))
                /\ ~ In success_message (echoes_of evs)
                /\ forall m, In m (echoes_of evs) -> ~ In m failure_messages))).
Proof.
  cbv zeta. unfold run_os.
  destruct (exec_os w (setup_devcontainer workspace_dir repo github config purge) [])
    as [evs [r | e c]] eqn:E; cbn [fst snd].
  - right. apply exec_os_finished in E.
    pose proof (returned_run_outcome (returned_codes w) workspace_dir repo github config purge)
      as H.
    cbv zeta in H. unfold run in H. rewrite E in H. cbn [fst snd] in H.
    destruct H as (c & rc & Hlast & H). exists c, rc. split; [exact Hlast |].
    destruct H as [(-> & -> & -> & H) | [(Hrc & -> & -> & H) | [(Hrc & -> & -> & H) | (Hrc & Hc & -> & H)]]];
      [ left | right; left | right; right; left | right; right; right ]; auto.
  - left. exists e, c. apply exec_os_uncaught in E as [Hraise [after Hafter]].
    split; [reflexivity |]. split; [exact Hraise |]. split; [reflexivity |].
    exact (@each_split_spec _ _ []
             (run_nothing_reported (returned_codes w) workspace_dir repo github config purge)
             evs (Called c 0%Z) after Hafter c 0%Z eq_refl).
Qed.

Ltac absent_tool_event :=
  let He := fresh "He" in
  let Hne := fresh "Hne" in
  intros t ? He Hne; destruct t; cbn [tool_name install_command] in *;
  first
    [ discriminate He
    | solve [ exfalso; vm_compute in He;
              first [ discriminate He | injection He; intros; congruence ] ]
    | do 2 eexists; reflexivity ].

Lemma run_absent_tool_is_installed (w : world) (workspace_dir : str)
    (repo github : option str) (config : str) (purge : bool) :
  each_split
    (fun _ e after =>
       forall t rc, e = Called (probe_call workspace_dir (tool_name t)) rc -> rc <> 0%Z ->
       exists rc' rest,
         calls_of after = (install_call workspace_dir (install_command t), rc') :: rest)
    [] (fst (run w workspace_dir repo github config purge)).
Proof.
  run_paths w; cbn [each_split app]; split_events; absent_tool_event.
Qed.

(** X11. For each of [curl], [nix] and [home-manager]: when the probe for
    the tool returns another code than 0, the next command of the run is the
    install command of that tool. *)
Theorem absent_tool_is_installed (w : world) (workspace_dir : str)
    (repo github : option str) (config : str) (purge : bool)
    (t : tool) (before after : list event) (rc : Z) :
  fst (run w workspace_dir repo github config purge)
    = before ++ Called (probe_call workspace_dir (tool_name t)) rc :: after ->
  rc <> 0%Z ->
  exists rc' rest,
    calls_of after = (install_call workspace_dir (install_command t), rc') :: rest.
Proof.
  intros Heq Hne.
  exact (@each_split_spec _ _ []
           (run_absent_tool_is_installed w workspace_dir repo github config purge)
           before _ after Heq t rc eq_refl Hne).
Qed.

Lemma absent_tool_is_installed_witness :
  let evs := fst (run (scripted [0; 0; 0; 1; 1]%Z) (lit ".") None
                    (Some (lit "octocat/hello-world")) (lit "home") false) in
  evs = removelast (removelast (removelast evs))
        ++ Called (probe_call (lit ".") (tool_name nix)) 1
        :: [Echoed (lit "Installing nix...");
            Called (install_call (lit ".") (install_command nix)) 1]
  /\ 1%Z <> 0%Z
  /\ exists rc' rest,
       calls_of [Echoed (lit "Installing nix...");
                 Called (install_call (lit ".") (install_command nix)) 1]
       = (install_call (lit ".") (install_command nix), rc') :: rest.
Proof.
  cbv zeta.
  assert (Heq : fst (run (scripted [0; 0; 0; 1; 1]%Z) (lit ".") None
                       (Some (lit "octocat/hello-world")) (lit "home") false)
                = removelast (removelast (removelast
                    (fst (run (scripted [0; 0; 0; 1; 1]%Z) (lit ".") None
                            (Some (lit "octocat/hello-world")) (lit "home") false))))
                  ++ Called (probe_call (lit ".") (tool_name nix)) 1
                  :: [Echoed (lit "Installing nix...");
                      Called (install_call (lit ".") (install_command nix)) 1])
    by reflexivity.
  assert (Hne : 1%Z <> 0%Z) by discriminate.
  split; [exact Heq |]. split; [exact Hne |].
  exact (@absent_tool_is_installed _ _ _ _ _ _ nix _ _ _ Heq Hne).
Defined.

(** X12. In every run the container start is the first command and runs
    once; every later command is [devcontainer exec] on the same workspace
    folder; no command runs before the line that announces the start; and a
    run has at least one command and at most nine. *)
Theorem run_commands (w : world) (workspace_dir : str)
    (repo github : option str) (config : str) (purge : bool) :
  let evs := fst (run w workspace_dir repo github config purge) in
  let cs := map fst (calls_of evs) in
  hd_error evs = Some (Echoed (lit "Starting devcontainer in " ++ workspace_dir ++ lit "..."))
  /\ hd_error cs = Some (start_call workspace_dir purge)
  /\ Forall (fun c => by_start c = false
                      /\ firstn 4 (argv c)
                         = [lit "devcontainer"; lit "exec"; lit "--workspace-folder";
                            workspace_dir])
       (tl cs)
  /\ (1 <= length cs <= 9)%nat.
Proof.
  cbv zeta. run_paths w.
  all: split; [reflexivity |]; split; [reflexivity |]; split;
    [ cbn [calls_of flat_map app map fst tl]; repeat constructor
    | cbn [calls_of flat_map app map fst length]; lia ].
Qed.

Ltac run_step_by_count f :=
  match goal with
  | |- context [Z.eqb (f ?n) 0] =>
      let rc := fresh "rc" in
      generalize (f n); intros rc;
      destruct (Z.eqb_spec rc 0) as [-> | ?]; run_cbn
  end.

(** X13. The purge flag reaches the container start and nothing else.
    Against a world whose answers do not depend on the command text, the run
    with the flag is the run without it with [--remove-existing-container]
    added as the last argument of the start command: the same lines, the
    same other commands, the same return codes and the same result. *)
Theorem purge_changes_start_only (f : nat -> Z) (workspace_dir : str)
    (repo github : option str) (config : str) :
  let with_flag := run (by_count f) workspace_dir repo github config true in
  let without := run (by_count f) workspace_dir repo github config false in
  fst with_flag = map (with_start (start_call workspace_dir true)) (fst without)
  /\ snd with_flag = snd without
  /\ argv (start_call workspace_dir true)
     = argv (start_call workspace_dir false) ++ [lit "--remove-existing-container"].
Proof.
  cbv zeta.
  unfold run, setup_devcontainer, start_devcontainer, command_in_container_available,
    devcontainer_exec, run_command, echo, echo_str, check_returncode, ret, throw, by_count.
  run_cbn. repeat run_step_by_count f.
  all: repeat split; reflexivity.
Qed.

Ltac apply_reached_after pre :=
  match goal with
  | |- exists _ rc rc', ?l = _ /\ ?l' = _ /\ _ =>
      exists pre;
      match l with
      | context [Called (Call _ [_; _; _; _; _; _; _; _; _] _) ?r] =>
          match l' with
          | context [Called (Call _ [_; _; _; _; _; _; _; _; _] _) ?r'] =>
              exists r, r'
          end
      end;
      repeat match goal with
        | n : ?x <> 0%Z |- context [(?x =? 0)%Z] => rewrite (proj2 (Z.eqb_neq x 0) n)
        end;
      split; [ reflexivity |]; split; [ reflexivity |];
      let Hin := fresh "Hin" in
      intros Hin; cbn [removelast] in Hin; cases_in Hin
  end.

Ltac apply_reached :=
  match goal with
  | |- exists _ _ _, ?l = _ /\ _ =>
      first [ apply_reached_after (removelast (removelast l))
            | apply_reached_after (removelast (removelast (removelast l))) ]
  end.

(** X14. The sources and the configuration name reach the final step and
    nothing before it. Two runs against the same world that differ in them
    are the same, event for event, until the line that announces the final
    step: either neither gets there, and then the two runs and their results
    are equal, or both get there after the same events and run their own
    apply command. *)
Theorem sources_reach_apply_only (w : world) (workspace_dir : str) (purge : bool)
    (repo github : option str) (config : str)
    (repo' github' : option str) (config' : str) :
  let r := run w workspace_dir repo github config purge in
  let r' := run w workspace_dir repo' github' config' purge in
  (fst r = fst r' /\ snd r = snd r'
   /\ ~ In (Echoed (lit "Applying personal configuration...")) (fst r))
  \/ exists pre rc rc',
       fst r = pre ++ Echoed (lit "Applying personal configuration...")
                 :: Called (apply_call workspace_dir repo github config) rc
                 :: (if (rc =? 0)%Z then [Echoed success_message] else [])
       /\ fst r' = pre ++ Echoed (lit "Applying personal configuration...")
                     :: Called (apply_call workspace_dir repo' github' config') rc'
                     :: (if (rc' =? 0)%Z then [Echoed success_message] else [])
       /\ ~ In (Echoed (lit "Applying personal configuration...")) pre.
Proof.
  cbv zeta.
  unfold run, setup_devcontainer, start_devcontainer, command_in_container_available,
    devcontainer_exec, run_command, echo, echo_str, check_returncode, ret, throw.
  run_cbn. repeat run_step w.
  all: first
    [ left; solve [ split; [reflexivity |]; split; [reflexivity |];
                    let Hin := fresh "Hin" in intros Hin; cases_in Hin ]
    | right; solve [ apply_reached ] ].
Qed.
